(** * Audio-Assistant: the session store and the message assembler of app.py

    A shallow embedding of the Flask handlers of [app.py] and of the Python
    primitives they call, followed by the properties of the specification
    that were checked against them.

    Conventions of the embedding:
    - a Python [str] is a [string] (its UTF-8 bytes); [lower] folds the
      ASCII letters, which decides the six audio suffixes as Python does;
    - a value of a JSON request is a [pyval]: [None], a [bool], an [int] or
      a [str]; floats and containers are left out;
    - a session id is a [str], and the module-level dict [sessions] is a
      [gmap string SessionState]; what the chat handler does with a body
      that is not an object, or with an id it cannot hash, is [chat_route];
    - the file system is a map from paths, as they are written, to nodes,
      a regular file with its bytes or a folder; a read, a write or a
      removal that the system refuses for another reason is outside it;
    - a handler is a computation on the world (sessions and disk) that
      either returns a value or raises, the world being kept as it is at
      the raise; [try]/[except] is [try_except];
    - the readings of the clock and the answer of the model are inputs of
      the handlers. *)

From Stdlib Require Import Strings.Byte Ascii String DecimalString DecimalNat DecimalZ.
From stdpp Require Import gmap strings list fin_maps.

Local Open Scope string_scope.
Local Open Scope list_scope.
Set Warnings "-register-all".

(** ** Python values and primitives *)

Module Py.

(** The scalar values a JSON request carries and a response holds. *)
Inductive pyval :=
| PyNone
| PyBool (b : bool)
| PyInt (z : Z)
| PyStr (s : string).

(** The containers [jsonify] is given. *)
Inductive json :=
| JVal (v : pyval)
| JList (items : list json)
| JObj (fields : list (string * json)).

Definition JStr (s : string) : json := JVal (PyStr s).
Definition JTrue : json := JVal (PyBool true).
Definition JFalse : json := JVal (PyBool false).
Definition JNone : json := JVal PyNone.

(** [d[key]] on the literal dict a handler builds. *)
Fixpoint field (key : string) (fields : list (string * json)) : option json :=
  match fields with
  | [] => None
  | (k, v) :: rest => if String.eqb k key then Some v else field key rest
  end.

Definition get (key : string) (j : json) : option json :=
  match j with
  | JObj fields => field key fields
  | _ => None
  end.

(** [str(n)] for an [int]. *)
Definition str_nat (n : nat) : string := NilEmpty.string_of_uint (Nat.to_uint n).
Definition str_int (z : Z) : string := NilEmpty.string_of_int (Z.to_int z).

(** [str(v)], what an f-string puts for [{v}]. *)
Definition str (v : pyval) : string :=
  match v with
  | PyNone => "None"
  | PyBool true => "True"
  | PyBool false => "False"
  | PyInt z => str_int z
  | PyStr s => s
  end.

(** [bool(v)], the test of [if v:]. *)
Definition truthy (v : pyval) : bool :=
  match v with
  | PyNone => false
  | PyBool b => b
  | PyInt z => negb (z =? 0)%Z
  | PyStr s => negb (String.eqb s "")
  end.

Fixpoint zeros (k : nat) : string :=
  match k with
  | O => ""
  | S k' => String "0"%char (zeros k')
  end.

(** [s.rjust(width, "0")]: the digits are never cut. *)
Definition zfill (width : nat) (s : string) : string :=
  zeros (width - String.length s) +:+ s.

(** [f"{n:03d}"] for [n >= 0]. *)
Definition format_03d (n : nat) : string := zfill 3 (str_nat n).

Definition lower_ascii (c : ascii) : ascii :=
  let n := Ascii.nat_of_ascii c in
  if (65 <=? n)%nat && (n <=? 90)%nat then Ascii.ascii_of_nat (n + 32) else c.

(** [s.lower()] *)
Fixpoint lower (s : string) : string :=
  match s with
  | EmptyString => EmptyString
  | String c rest => String (lower_ascii c) (lower rest)
  end.

(** [s.endswith(suffix)] *)
Definition endswith (s suffix : string) : bool :=
  let n := String.length s in
  let k := String.length suffix in
  (k <=? n)%nat && String.eqb (String.substring (n - k) k s) suffix.

(** [s.endswith((a, b, ...))] *)
Definition endswith_any (s : string) (suffixes : list string) : bool :=
  existsb (endswith s) suffixes.

Definition startswith (s pre : string) : bool := String.prefix pre s.

(** [os.path.join(a, b)] on POSIX, for a folder [a] that is not empty and
    does not end with a slash. *)
Definition path_join (a b : string) : string :=
  if startswith b "/" then b else a +:+ "/" +:+ b.

(** [os.path.dirname(p)] on POSIX: what is before the last slash, without
    its trailing slashes unless it is made of slashes only. *)
Fixpoint drop_slashes (rev_head : list ascii) : list ascii :=
  match rev_head with
  | c :: rest => if Ascii.eqb c "/" then drop_slashes rest else rev_head
  | [] => []
  end.

Fixpoint upto_last_slash (rev_path : list ascii) : list ascii :=
  match rev_path with
  | c :: rest => if Ascii.eqb c "/" then rev_path else upto_last_slash rest
  | [] => []
  end.

Definition dirname (p : string) : string :=
  let rev_head := upto_last_slash (reverse (list_ascii_of_string p)) in
  if forallb (Ascii.eqb "/") rev_head
  then string_of_list_ascii (reverse rev_head)
  else string_of_list_ascii (reverse (drop_slashes rev_head)).

(** [base64.b64encode(data).decode('utf-8')] *)
Definition b64_alphabet : string :=
  "ABCDEFGHIJKLMNOPQRSTUVWXYZabcdefghijklmnopqrstuvwxyz0123456789+/".

Definition b64_char (n : N) : ascii :=
  match String.get (N.to_nat n) b64_alphabet with
  | Some c => c
  | None => "="%char
  end.

Fixpoint b64encode (data : list byte) : string :=
  match data with
  | [] => ""
  | [a] =>
      let x := Byte.to_N a in
      String (b64_char (N.shiftr x 2))
        (String (b64_char (N.shiftl (N.land x 3) 4)) "==")
  | [a; b] =>
      let x := Byte.to_N a in
      let y := Byte.to_N b in
      String (b64_char (N.shiftr x 2))
        (String (b64_char (N.lor (N.shiftl (N.land x 3) 4) (N.shiftr y 4)))
           (String (b64_char (N.shiftl (N.land y 15) 2)) "="))
  | a :: b :: c :: rest =>
      let x := Byte.to_N a in
      let y := Byte.to_N b in
      let z := Byte.to_N c in
      String (b64_char (N.shiftr x 2))
        (String (b64_char (N.lor (N.shiftl (N.land x 3) 4) (N.shiftr y 4)))
           (String (b64_char (N.lor (N.shiftl (N.land y 15) 2) (N.shiftr z 6)))
              (String (b64_char (N.land z 63)) (b64encode rest))))
  end.

End Py.

Import Py.

(** ** The state of the server *)

Inductive Role := user | assistant.

Definition role_name (r : Role) : string :=
  match r with
  | user => "user"
  | assistant => "assistant"
  end.

(** The dicts appended to [sessions[id]['messages']]. *)
Record Message := {
  role : Role;
  content : pyval;
  timestamp : string
}.

(** The dicts appended to [sessions[id]['feedback']]. *)
Record FeedbackEntry := {
  rating : pyval;
  comment : pyval;
  fb_timestamp : string
}.

(** The value of [sessions[id]]. *)
Record SessionState := {
  messages : list Message;
  files : list string;
  ticket_counter : nat;
  feedback : list FeedbackEntry
}.

(** The dict literal the handlers store for an id they have not seen. *)
Definition fresh_session : SessionState :=
  {| messages := []; files := []; ticket_counter := 0; feedback := [] |}.

Definition set_messages (ms : list Message) (st : SessionState) : SessionState :=
  {| messages := ms; files := files st;
     ticket_counter := ticket_counter st; feedback := feedback st |}.

Definition set_files (fs : list string) (st : SessionState) : SessionState :=
  {| messages := messages st; files := fs;
     ticket_counter := ticket_counter st; feedback := feedback st |}.

Definition set_ticket_counter (n : nat) (st : SessionState) : SessionState :=
  {| messages := messages st; files := files st;
     ticket_counter := n; feedback := feedback st |}.

Definition set_feedback (fb : list FeedbackEntry) (st : SessionState) : SessionState :=
  {| messages := messages st; files := files st;
     ticket_counter := ticket_counter st; feedback := fb |}.

(** What a path of the file system holds. *)
Inductive node :=
| File (data : list byte)
| Dir.

Record World := {
  sessions : gmap string SessionState;
  disk : gmap string node
}.

Definition with_sessions (s : gmap string SessionState) (w : World) : World :=
  {| sessions := s; disk := disk w |}.

Definition with_disk (d : gmap string node) (w : World) : World :=
  {| sessions := sessions w; disk := d |}.

(** ** Exceptions *)

Inductive exn :=
| KeyError (key : string)
| FileNotFoundError (path : string)
| IsADirectoryError (path : string)
| NotADirectoryError (path : string)
| UnboundLocalError (name : string)
| ModelError (text : string)
| TypeError (text : string)
| AttributeError (text : string).

Definition hex_digit (n : nat) : ascii :=
  match String.get n "0123456789abcdef" with
  | Some c => c
  | None => "0"%char
  end.

(** One character of [repr(s)] inside the quotes [quote]: the quote and
    the backslash get a backslash, tab, line feed and carriage return their
    letter, the other control characters their two hexadecimal digits. *)
Definition repr_char (quote c : ascii) : string :=
  let n := Ascii.nat_of_ascii c in
  if Ascii.eqb c quote || Ascii.eqb c "\"%char then String "\"%char (String c "")
  else if (n =? 9)%nat then "\t"
  else if (n =? 10)%nat then "\n"
  else if (n =? 13)%nat then "\r"
  else if (n <? 32)%nat || (n =? 127)%nat
  then String "\"%char
         (String "x"%char
            (String (hex_digit (n / 16)) (String (hex_digit (n mod 16)) "")))
  else String c "".

(** [repr(s)] for a [str]: double quotes when the text holds a single quote
    and no double quote, single quotes otherwise. The characters outside
    ASCII are taken to be printable and are kept as they are. *)
Definition quoted (s : string) : string :=
  let chars := list_ascii_of_string s in
  let quote :=
    if existsb (Ascii.eqb "'"%char) chars
       && negb (existsb (Ascii.eqb (Ascii.ascii_of_nat 34)) chars)
    then Ascii.ascii_of_nat 34 else "'"%char in
  String quote
    (String.concat "" (repr_char quote <$> chars) +:+ String quote "").

(** [str(e)]. [ModelError] stands for whatever the model client raises and
    carries its text; the texts of [TypeError] and [AttributeError] are
    those of CPython 3.11. *)
Definition str_exn (e : exn) : string :=
  match e with
  | KeyError key => quoted key
  | FileNotFoundError path => "[Errno 2] No such file or directory: " +:+ quoted path
  | IsADirectoryError path => "[Errno 21] Is a directory: " +:+ quoted path
  | NotADirectoryError path => "[Errno 20] Not a directory: " +:+ quoted path
  | UnboundLocalError name =>
      "cannot access local variable " +:+ quoted name
      +:+ " where it is not associated with a value"
  | ModelError text => text
  | TypeError text => text
  | AttributeError text => text
  end.

Inductive result (A : Type) :=
| Ok (a : A)
| Raise (e : exn).

Arguments Ok {A} a.
Arguments Raise {A} e.

(** ** Computations on the world *)

Definition M (A : Type) : Type := World → World * result A.

#[global] Instance M_ret : MRet M := λ A a w, (w, Ok a).

#[global] Instance M_bind : MBind M := λ A B f m w,
  match m w with
  | (w', Ok a) => f a w'
  | (w', Raise e) => (w', Raise e)
  end.

Definition raise {A : Type} (e : exn) : M A := λ w, (w, Raise e).

(** [try: body except Exception as e: handler e] *)
Definition try_except {A : Type} (body : M A) (handler : exn → M A) : M A := λ w,
  match body w with
  | (w', Ok a) => (w', Ok a)
  | (w', Raise e) => handler e w'
  end.

(** [for x in l: body x], with the local variables the body assigns
    threaded as [acc]. *)
Fixpoint for_fold {A S : Type} (l : list A) (body : S → A → M S) (acc : S) : M S :=
  match l with
  | [] => mret acc
  | x :: rest => acc' ← body acc x; for_fold rest body acc'
  end.

Definition for_each {A : Type} (l : list A) (body : A → M unit) : M unit :=
  for_fold l (λ _ x, body x) tt.

(** [print] writes to the standard output, which the world leaves out. *)
Definition print (line : string) : M unit := mret tt.

(** [id in sessions] *)
Definition contains (session_id : string) : M bool := λ w,
  (w, Ok (bool_decide (is_Some (sessions w !! session_id)))).

(** [sessions[id]], a [KeyError] for an id that is not there. *)
Definition getitem (session_id : string) : M SessionState := λ w,
  match sessions w !! session_id with
  | Some st => (w, Ok st)
  | None => (w, Raise (KeyError session_id))
  end.

(** [sessions[id] = st], also the write back of an update in place. *)
Definition setitem (session_id : string) (st : SessionState) : M unit := λ w,
  (with_sessions (<[session_id := st]> (sessions w)) w, Ok tt).

(** [sessions[id][field] = f(sessions[id][field])] *)
Definition update (session_id : string) (f : SessionState → SessionState) : M unit :=
  st ← getitem session_id; setitem session_id (f st).

(** The block every creating handler starts with:
    [if session_id not in sessions: sessions[session_id] = {...}]. *)
Definition create_if_absent (session_id : string) : M unit :=
  present ← contains session_id;
  if negb present then setitem session_id fresh_session else mret tt.

(** [os.path.exists(path)] *)
Definition path_exists (path : string) : M bool := λ w,
  (w, Ok (bool_decide (is_Some (disk w !! path)))).

(** [open(path, 'rb').read()]. The read of a regular file succeeds: a file
    that cannot be opened for another reason than being a folder (its
    permissions, a device) is outside the map; the statements that need a
    read to succeed or to raise say so in terms of [read_bytes]. *)
Definition read_bytes (path : string) : M (list byte) := λ w,
  match disk w !! path with
  | Some (File data) => (w, Ok data)
  | Some Dir => (w, Raise (IsADirectoryError path))
  | None => (w, Raise (FileNotFoundError path))
  end.

(** [os.remove(path)] on the path as it is written. The removal of a
    regular file succeeds: a removal refused by the system, and a path
    whose [..] components lead elsewhere, are outside the map. *)
Definition os_remove (path : string) : M unit := λ w,
  match disk w !! path with
  | Some (File _) => (with_disk (delete path (disk w)) w, Ok tt)
  | Some Dir => (w, Raise (IsADirectoryError path))
  | None => (w, Raise (FileNotFoundError path))
  end.

(** [file.save(path)]: [open(path, 'wb')] and a copy of the stream. The
    folder of the path has to be there; an empty [dirname] is the working
    directory. The other reasons for which the system refuses a write (a
    name that is too long or holds a NUL, permissions, a full disk) are
    outside the map: what is stated of a save that succeeds is stated
    under [can_save], and of one that raises under its negation. *)
Definition save (path : string) (data : list byte) : M unit := λ w,
  match disk w !! path with
  | Some Dir => (w, Raise (IsADirectoryError path))
  | _ =>
      if String.eqb (dirname path) "" then
        (with_disk (<[path := File data]> (disk w)) w, Ok tt)
      else
        match disk w !! dirname path with
        | Some Dir => (with_disk (<[path := File data]> (disk w)) w, Ok tt)
        | Some (File _) => (w, Raise (NotADirectoryError path))
        | None => (w, Raise (FileNotFoundError path))
        end
  end.

(** ** Responses *)

Record Response := {
  status : nat;
  body : json
}.

(** [jsonify(d)]: a response of status 200 whose body is [d]. *)
Definition jsonify (fields : list (string * json)) : Response :=
  {| status := 200; body := JObj fields |}.

Definition UPLOAD_FOLDER : string := "uploads".

Definition json_nat (n : nat) : json := JVal (PyInt (Z.of_nat n)).
Definition json_names (l : list string) : json := JList (JStr <$> l).

Definition json_message (m : Message) : json :=
  JObj [("role", JStr (role_name (role m)));
        ("content", JVal (content m));
        ("timestamp", JStr (timestamp m))].

Definition nl : string := String (Ascii.ascii_of_nat 10) "".
Definition dquote : string := String (Ascii.ascii_of_nat 34) "".

(** ** The handlers of app.py *)

(** [/init_session] *)
Definition init_session (session_id : string) : M Response :=
  create_if_absent session_id;;
  st ← getitem session_id;
  mret (jsonify [("success", JTrue);
                 ("files", json_names (files st));
                 ("ticket_counter", json_nat (ticket_counter st))]).

(** An entry of [request.files]: [bool(file)] is [bool(file.filename)]. *)
Record FileStorage := {
  filename : string;
  stream : list byte
}.

(** [f"{int(time.time())}_{file.filename}"] *)
Definition stored_name (epoch : Z) (original : string) : string :=
  str_int epoch +:+ "_" +:+ original.

(** The body of the loop of [upload_file]; [epoch] is what
    [int(time.time())] gives when the file is reached. *)
Definition upload_one (session_id : string) (uploaded_files : list string)
    (item : Z * FileStorage) : M (list string) :=
  let '(epoch, file) := item return M (list string) in
  if truthy (PyStr (filename file)) then
    let name := stored_name epoch (filename file) in
    let filepath := path_join UPLOAD_FOLDER name in
    save filepath (stream file);;
    update session_id (λ st, set_files (files st ++ [name]) st);;
    mret (uploaded_files ++ [name])
  else mret uploaded_files.

(** [/upload] *)
Definition upload_file (session_id : string) (uploads : list (Z * FileStorage))
    : M Response :=
  create_if_absent session_id;;
  uploaded_files ← for_fold uploads (upload_one session_id) [];
  mret (jsonify [("success", JTrue); ("files", json_names uploaded_files)]).

(** The model client: [model.generate_content(contents).text], or what it
    raises. *)
Definition GenerativeModel : Type := list json → result string.

Definition call_model (generate_content : GenerativeModel) (contents : list json)
    : M string := λ w, (w, generate_content contents).

Definition audio_suffixes : list string :=
  [".wav"; ".mp3"; ".aiff"; ".aac"; ".ogg"; ".flac"].

(** The [if]/[elif] chain that assigns [mime_type]; it has no [else], so
    the variable keeps its value when no branch is taken. *)
Definition assign_mime_type (name : string) (mime_type : option string)
    : option string :=
  if endswith (lower name) ".wav" then Some "audio/wav"
  else if endswith (lower name) ".mp3" then Some "audio/mp3"
  else if endswith (lower name) ".aiff" then Some "audio/aiff"
  else if endswith (lower name) ".aac" then Some "audio/aac"
  else if endswith (lower name) ".ogg" then Some "audio/ogg"
  else if endswith (lower name) ".flac" then Some "audio/flac"
  else mime_type.

Definition text_part (message : pyval) : json := JObj [("text", JVal message)].

Definition audio_part (mime_type data : string) : json :=
  JObj [("inline_data", JObj [("mime_type", JStr mime_type); ("data", JStr data)])].

(** The body of the loop over the files of the session in [chat]. The
    locals are [user_parts] and [mime_type], unbound before the first
    assignment. *)
Definition add_audio (locals : list json * option string) (name : string)
    : M (list json * option string) :=
  let '(user_parts, mime_type) := locals return M (list json * option string) in
  let filepath := path_join UPLOAD_FOLDER name in
  found ← path_exists filepath;
  if (found : bool) then
    if endswith_any (lower name) audio_suffixes then
      audio_data ← read_bytes filepath;
      let encoded_audio := b64encode audio_data in
      match assign_mime_type name mime_type with
      | Some mt => mret (audio_part mt encoded_audio :: user_parts, Some mt)
      | None => raise (UnboundLocalError "mime_type")
      end
    else mret locals
  else mret locals.

(** The parts sent to the model: the text part if the message is truthy,
    then every audio part inserted at index 0. *)
Definition build_user_parts (message : pyval) (names : list string) : M (list json) :=
  let user_parts := if truthy message then [text_part message] else [] in
  locals ← for_fold names add_audio (user_parts, None);
  mret locals.1.

Definition chat_try (model : option GenerativeModel) (session_id : string)
    (message is_voice_input : pyval) (now1 now2 : string) : M Response :=
  update session_id (λ st,
    set_messages (messages st ++
      [{| role := user; content := message; timestamp := now1 |}]) st);;
  match model with
  | Some generate_content =>
      st ← getitem session_id;
      user_parts ← build_user_parts message (files st);
      bot_response ← call_model generate_content
        [JObj [("role", JStr "user"); ("parts", JList user_parts)]];
      update session_id (λ st,
        set_messages (messages st ++
          [{| role := assistant; content := PyStr bot_response;
              timestamp := now2 |}]) st);;
      mret (jsonify [("success", JTrue);
                     ("response", JStr bot_response);
                     ("is_voice_input", JVal is_voice_input);
                     ("video", JNone);
                     ("video_name", JNone);
                     ("session_ended", JFalse)])
  | None =>
      mret (jsonify [("error", JStr "Model not available");
                     ("response",
                      JStr "I apologize, but the AI model is currently unavailable.")])
  end.

(** [/chat] from line 110 on, once the three fields of the body are read
    and for a session id that is a [str]; [now1] and [now2] are the two
    readings of [datetime.now().isoformat()]. The reading of the body, which
    comes before and outside the [try], is [chat_route]. *)
Definition chat (model : option GenerativeModel) (session_id : string)
    (message is_voice_input : pyval) (now1 now2 : string) : M Response :=
  create_if_absent session_id;;
  try_except (chat_try model session_id message is_voice_input now1 now2)
    (λ e,
      print ("Chat error: " +:+ str_exn e);;
      mret (jsonify [("error", JStr (str_exn e));
                     ("response",
                      JStr "An error occurred while processing your request.")])).








(** [f"Q{n:03d}"] *)
Definition ticket_number_of (n : nat) : string := "Q" +:+ format_03d n.

(** [/api/create-ticket] *)
Definition create_ticket (session_id : string) : M Response :=
  create_if_absent session_id;;
  update session_id (λ st, set_ticket_counter (ticket_counter st + 1) st);;
  st ← getitem session_id;
  let ticket_number := ticket_number_of (ticket_counter st) in
  mret (jsonify [("success", JTrue);
                 ("ticket_number", JStr ticket_number);
                 ("message",
                  JStr ("Quality Inspection Ticket " +:+ ticket_number
                        +:+ " created successfully!"))]).

(** [/export/json] *)
Definition export_json (session_id : string) : M Response :=
  present ← contains session_id;
  if (present : bool) then
    st ← getitem session_id;
    mret (jsonify [("session_id", JStr session_id);
                   ("messages", JList (json_message <$> messages st));
                   ("files", json_names (files st));
                   ("ticket_counter", json_nat (ticket_counter st))])
  else mret (jsonify [("error", JStr "Session not found")]).

(** The body of the loop of [clear_chat], with its own [try]. *)
Definition delete_upload (name : string) : M unit :=
  let filepath := path_join UPLOAD_FOLDER name in
  try_except
    (found ← path_exists filepath;
     if (found : bool) then os_remove filepath else mret tt)
    (λ e, print ("Error deleting file " +:+ name +:+ ": " +:+ str_exn e)).

(** [/clear] *)
Definition clear_chat (session_id : string) : M Response :=
  present ← contains session_id;
  if (present : bool) then
    st ← getitem session_id;
    for_each (files st) delete_upload;;
    update session_id (set_messages []);;
    update session_id (set_files []);;
    mret (jsonify [("success", JTrue)])
  else mret (jsonify [("success", JFalse); ("error", JStr "Session not found")]).

(** [/feedback]; [now] is the reading of the clock. *)
Definition submit_feedback (session_id : string) (rating comment : pyval)
    (now : string) : M Response :=
  create_if_absent session_id;;
  let feedback_entry :=
    {| rating := rating; comment := comment; fb_timestamp := now |} in
  update session_id (λ st, set_feedback (feedback st ++ [feedback_entry]) st);;
  mret (jsonify [("success", JTrue)]).

(** [f"{fb['timestamp']},{fb['rating']},\"{fb['comment']}\"\n"] *)
Definition csv_row (fb : FeedbackEntry) : string :=
  fb_timestamp fb +:+ "," +:+ str (rating fb) +:+ ","
  +:+ dquote +:+ str (comment fb) +:+ dquote +:+ nl.

Definition csv_header : string := "Timestamp,Rating,Comment" +:+ nl.

(** [bool(l)] for a list *)
Definition nonempty {A : Type} (l : list A) : bool :=
  match l with
  | [] => false
  | _ :: _ => true
  end.

(** [/export/feedback] *)
Definition export_feedback (session_id : string) : M Response :=
  present ← contains session_id;
  has_feedback ←
    (if (present : bool) then st ← getitem session_id; mret (nonempty (feedback st))
     else mret false);
  if (has_feedback : bool) then
    st ← getitem session_id;
    let csv_data := fold_left (λ acc fb, acc +:+ csv_row fb) (feedback st) csv_header in
    mret (jsonify [("success", JTrue);
                   ("csv_data", JStr csv_data);
                   ("filename", JStr ("feedback_" +:+ session_id +:+ ".csv"))])
  else
    mret (jsonify [("success", JFalse);
                   ("error", JStr "No feedback data available")]).

(** A client request and its dispatch to the handlers. *)
Inductive Request :=
| InitSession (session_id : string)
| Upload (session_id : string) (uploads : list (Z * FileStorage))
| Chat (model : option GenerativeModel) (session_id : string)
    (message is_voice_input : pyval) (now1 now2 : string)
| CreateTicket (session_id : string)
| Feedback (session_id : string) (rating comment : pyval) (now : string)
| ExportJson (session_id : string)
| ExportFeedback (session_id : string)
| Clear (session_id : string).

Definition handle (r : Request) : M Response :=
  match r with
  | InitSession session_id => init_session session_id
  | Upload session_id uploads => upload_file session_id uploads
  | Chat model session_id message is_voice_input now1 now2 =>
      chat model session_id message is_voice_input now1 now2
  | CreateTicket session_id => create_ticket session_id
  | Feedback session_id rating' comment' now =>
      submit_feedback session_id rating' comment' now
  | ExportJson session_id => export_json session_id
  | ExportFeedback session_id => export_feedback session_id
  | Clear session_id => clear_chat session_id
  end.

Definition session_of (r : Request) : string :=
  match r with
  | InitSession session_id | Upload session_id _ | Chat _ session_id _ _ _ _
  | CreateTicket session_id | Feedback session_id _ _ _ | ExportJson session_id
  | ExportFeedback session_id | Clear session_id => session_id
  end.

(** The handlers that start with the create-if-absent block. *)
Definition creates (r : Request) : bool :=
  match r with
  | InitSession _ | Upload _ _ | Chat _ _ _ _ _ _ | CreateTicket _
  | Feedback _ _ _ _ => true
  | ExportJson _ | ExportFeedback _ | Clear _ => false
  end.

(** [n] calls of the same computation in a row, with their results. *)
Fixpoint call_n {A : Type} (n : nat) (m : M A) : M (list A) :=
  match n with
  | O => mret []
  | S k => a ← m; rest ← call_n k m; mret (a :: rest)
  end.

(** The counter of a session, 0 for an id that is not in the store. *)
Definition counter_of (w : World) (session_id : string) : nat :=
  from_option ticket_counter 0 (sessions w !! session_id).

(** The session an id stands for once a creating handler has run its
    first block. *)
Definition session_or_fresh (w : World) (session_id : string) : SessionState :=
  default fresh_session (sessions w !! session_id).

Definition ensure (session_id : string) (w : World) : World :=
  match sessions w !! session_id with
  | Some _ => w
  | None => with_sessions (<[session_id := fresh_session]> (sessions w)) w
  end.

(** The number a ticket string stands for: the decimal value after the
    letter. *)
Definition ticket_value (ticket : string) : option nat :=
  match ticket with
  | String "Q" digits => Nat.of_uint <$> NilEmpty.uint_of_string digits
  | _ => None
  end.

(** ** Closed forms and samples used in the statements *)

(** The response of the create-ticket handler for the counter value [n]. *)
Definition ticket_response (n : nat) : Response :=
  jsonify [("success", JTrue);
           ("ticket_number", JStr (ticket_number_of n));
           ("message",
            JStr ("Quality Inspection Ticket " +:+ ticket_number_of n
                  +:+ " created successfully!"))].

Definition ticket_field (r : Response) : option json := get "ticket_number" (body r).

Definition not_found_response : Response :=
  jsonify [("error", JStr "Session not found")].

Definition snapshot_response (session_id : string) (st : SessionState) : Response :=
  jsonify [("session_id", JStr session_id);
           ("messages", JList (json_message <$> messages st));
           ("files", json_names (files st));
           ("ticket_counter", json_nat (ticket_counter st))].

Definition no_feedback_response : Response :=
  jsonify [("success", JFalse); ("error", JStr "No feedback data available")].

Definition feedback_response (session_id : string) (fbs : list FeedbackEntry)
    : Response :=
  jsonify [("success", JTrue);
           ("csv_data", JStr (String.concat "" (csv_header :: (csv_row <$> fbs))));
           ("filename", JStr ("feedback_" +:+ session_id +:+ ".csv"))].

Definition sample_feedback : FeedbackEntry :=
  {| rating := PyInt 4;
     comment := PyStr ("said " +:+ dquote +:+ "fine, thanks" +:+ dquote);
     fb_timestamp := "2024-05-01T10:00:00" |}.

Definition sample_session : SessionState :=
  {| messages := [{| role := user; content := PyStr "hello";
                     timestamp := "2024-05-01T09:59:00" |}];
     files := ["1714557540_a.wav"; "1714557541_notes.pdf"];
     ticket_counter := 2;
     feedback := [sample_feedback] |}.

Definition sample_world : World :=
  {| sessions := {[ "s1" := sample_session ]};
     disk := {[ "uploads" := Dir;
                "uploads/1714557540_a.wav" := File (list_byte_of_string "Man") ]} |}.

(** What [delete_upload] does to the disk: a regular file goes, a folder
    stays (its [OSError] is printed), a missing path is left alone. *)
Definition remove_file (path : string) (d : gmap string node) : gmap string node :=
  match d !! path with
  | Some (File _) => delete path d
  | _ => d
  end.

Definition disk_after_clear (names : list string) (d : gmap string node)
    : gmap string node :=
  foldl (λ d name, remove_file (path_join UPLOAD_FOLDER name) d) d names.

Definition cleared (st : SessionState) : SessionState :=
  {| messages := []; files := [];
     ticket_counter := ticket_counter st; feedback := feedback st |}.

Definition with_fresh (session_id : string) (w : World) : World :=
  with_sessions (<[session_id := fresh_session]> (sessions w)) w.

Definition present (session_id : string) (w : World) : Prop :=
  is_Some (sessions w !! session_id).

Definition is_audio (name : string) : bool :=
  endswith_any (lower name) audio_suffixes.

(** The table behind the chain of [assign_mime_type]. *)
Definition mime_table : list (string * string) :=
  [(".wav", "audio/wav"); (".mp3", "audio/mp3"); (".aiff", "audio/aiff");
   (".aac", "audio/aac"); (".ogg", "audio/ogg"); (".flac", "audio/flac")].

Definition mime_type_of (name : string) : option string :=
  snd <$> find (λ entry, endswith (lower name) entry.1) mime_table.

(** The part a stored name contributes: one audio part for a regular file
    with an audio suffix, nothing otherwise. *)
Definition qualifying_part (d : gmap string node) (name : string) : option json :=
  match d !! path_join UPLOAD_FOLDER name with
  | Some (File data) =>
      if is_audio name
      then (λ mt, audio_part mt (b64encode data)) <$> mime_type_of name
      else None
  | _ => None
  end.

Definition audio_parts (d : gmap string node) (names : list string) : list json :=
  omap (qualifying_part d) names.

Definition two_files_world : World :=
  {| sessions := ∅;
     disk := {[ "uploads" := Dir;
                "uploads/a.wav" := File (list_byte_of_string "Man");
                "uploads/b.mp3" := File (list_byte_of_string "Ma") ]} |}.

Definition user_message (message : pyval) (now : string) : Message :=
  {| role := user; content := message; timestamp := now |}.

Definition assistant_message (text : string) (now : string) : Message :=
  {| role := assistant; content := PyStr text; timestamp := now |}.

Definition apology : string := "An error occurred while processing your request.".

Definition error_response (e : exn) : Response :=
  jsonify [("error", JStr (str_exn e)); ("response", JStr apology)].

Definition unavailable_response : Response :=
  jsonify [("error", JStr "Model not available");
           ("response",
            JStr "I apologize, but the AI model is currently unavailable.")].

Definition chat_response (text : string) (is_voice_input : pyval) : Response :=
  jsonify [("success", JTrue);
           ("response", JStr text);
           ("is_voice_input", JVal is_voice_input);
           ("video", JNone);
           ("video_name", JNone);
           ("session_ended", JFalse)].

(** What is sent to the model. *)
Definition contents_of (user_parts : list json) : list json :=
  [JObj [("role", JStr "user"); ("parts", JList user_parts)]].

(** The session once the user message is appended. *)
Definition with_user_message (w : World) (session_id : string) (message : pyval)
    (now : string) : SessionState :=
  set_messages
    (messages (session_or_fresh w session_id) ++ [user_message message now])
    (session_or_fresh w session_id).

Definition after_user_message (w : World) (session_id : string) (message : pyval)
    (now : string) : World :=
  with_sessions
    (<[session_id := with_user_message w session_id message now]> (sessions w)) w.

Definition after_answer (w : World) (session_id : string) (message : pyval)
    (now1 : string) (text now2 : string) : World :=
  with_sessions
    (<[session_id :=
         set_messages
           (messages (with_user_message w session_id message now1)
            ++ [assistant_message text now2])
           (with_user_message w session_id message now1)]> (sessions w)) w.

Definition failing_model : GenerativeModel :=
  λ _, Raise (ModelError "429 quota exceeded").

(** The uploads the loop stores: those whose file is truthy. *)
Definition accepted (uploads : list (Z * FileStorage)) : list (Z * FileStorage) :=
  List.filter (λ item, truthy (PyStr (filename item.2))) uploads.

Definition upload_name (item : Z * FileStorage) : string :=
  stored_name item.1 (filename item.2).

Definition upload_path (item : Z * FileStorage) : string :=
  path_join UPLOAD_FOLDER (upload_name item).

(** The disk once the accepted uploads are written, in order: a later
    upload replaces an earlier one stored under the same path. *)
Definition written (items : list (Z * FileStorage)) (d : gmap string node)
    : gmap string node :=
  foldl (λ d item, <[upload_path item := File (stream item.2)]> d) d items.

(** The condition under which [save] does not raise. *)
Definition can_save (d : gmap string node) (path : string) : bool :=
  match d !! path with
  | Some Dir => false
  | _ =>
      if String.eqb (dirname path) "" then true
      else match d !! dirname path with
           | Some Dir => true
           | _ => false
           end
  end.

(** The server handling a sequence of requests, each on the world the
    previous one left (also when it raised), with the log of the answers. *)
Fixpoint serve (requests : list Request) (w : World)
    : World * list (Request * result Response) :=
  match requests with
  | [] => (w, [])
  | r :: rest =>
      let out := handle r w in
      let next := serve rest out.1 in
      (next.1, (r, out.2) :: next.2)
  end.

Definition is_ticket_for (session_id : string) (r : Request) : bool :=
  match r with
  | CreateTicket session_id' => String.eqb session_id' session_id
  | _ => false
  end.

(** The answers to the create-ticket requests of one session, in order. *)
Definition tickets_for (session_id : string)
    (log : list (Request * result Response)) : list (result Response) :=
  snd <$> List.filter (λ entry, is_ticket_for session_id entry.1) log.

Definition empty_world : World := {| sessions := ∅; disk := ∅ |}.

(** [load_model()]: [attempt] is the outcome of [get_proxy_client] followed
    by the constructor of the model; a failure is printed and gives [None]. *)
Definition load_model (attempt : result GenerativeModel) : option GenerativeModel :=
  match attempt with
  | Ok model => Some model
  | Raise e => None
  end.

(** The handlers that call [file.save] or [os.remove]. *)
Definition touches_disk (r : Request) : bool :=
  match r with
  | Upload _ _ | Clear _ => true
  | _ => false
  end.

(** A name without a slash. *)
Definition slash_free (s : string) : bool :=
  forallb (λ c, negb (Ascii.eqb c "/")) (list_ascii_of_string s).


(** What an upload does to the session it appends to, also when it stops
    on a save that raises: the files get longer, the rest stays. *)
Definition files_extended (st st' : SessionState) : Prop :=
  messages st' = messages st
  ∧ ticket_counter st' = ticket_counter st
  ∧ feedback st' = feedback st
  ∧ files st `prefix_of` files st'.

Definition folder_world : World :=
  {| sessions := ∅;
     disk := {[ "uploads" := Dir;
                "uploads/a.wav" := File (list_byte_of_string "Man");
                "uploads/x.wav" := Dir;
                "uploads/5_b.wav" := Dir ]} |}.

Definition ogg_file : FileStorage :=
  {| filename := "c.ogg"; stream := list_byte_of_string "M" |}.

Definition wav_file : FileStorage :=
  {| filename := "a.wav"; stream := list_byte_of_string "Man" |}.

Definition blocked_file : FileStorage :=
  {| filename := "b.wav"; stream := list_byte_of_string "Ma" |}.

Definition unnamed_file : FileStorage := {| filename := ""; stream := [] |}.

(** * Properties *)

(** ** Running computations *)

Ltac unfold_M :=
  unfold mbind, M_bind, mret, M_ret, raise, try_except, print in *.

Lemma world_eta (w : World) : with_sessions (sessions w) w = w.
Proof. by destruct w. Qed.

Lemma bind_ok {A B : Type} (m : M A) (f : A → M B) (w w' : World) (a : A) :
  m w = (w', Ok a) → (m ≫= f) w = f a w'.
Proof. intros H. unfold_M. by rewrite H. Qed.

Lemma bind_raise {A B : Type} (m : M A) (f : A → M B) (w w' : World) (e : exn) :
  m w = (w', Raise e) → (m ≫= f) w = (w', Raise e).
Proof. intros H. unfold_M. by rewrite H. Qed.

Lemma create_if_absent_run (session_id : string) (w : World) :
  create_if_absent session_id w = (ensure session_id w, Ok tt).
Proof.
  unfold create_if_absent, contains, setitem, ensure. unfold_M.
  destruct (sessions w !! session_id) as [st|] eqn:E.
  - rewrite bool_decide_eq_true_2; [done | by eexists].
  - rewrite bool_decide_eq_false_2; [done | by intros [? ?]].
Qed.

Lemma ensure_lookup (session_id : string) (w : World) :
  sessions (ensure session_id w) !! session_id
  = Some (session_or_fresh w session_id).
Proof.
  unfold ensure, session_or_fresh.
  destruct (sessions w !! session_id) as [st|] eqn:E; simpl.
  - by rewrite E.
  - by rewrite lookup_insert_eq.
Qed.

Lemma ensure_present (session_id : string) (w : World) (st : SessionState) :
  sessions w !! session_id = Some st → ensure session_id w = w.
Proof. intros H. unfold ensure. by rewrite H. Qed.

Lemma ensure_disk (session_id : string) (w : World) :
  disk (ensure session_id w) = disk w.
Proof. unfold ensure. by destruct (sessions w !! session_id). Qed.

Lemma getitem_run (session_id : string) (w : World) (st : SessionState) :
  sessions w !! session_id = Some st → getitem session_id w = (w, Ok st).
Proof. intros H. unfold getitem. by rewrite H. Qed.

Lemma update_run (session_id : string) (f : SessionState → SessionState)
    (w : World) (st : SessionState) :
  sessions w !! session_id = Some st →
  update session_id f w
  = (with_sessions (<[session_id := f st]> (sessions w)) w, Ok tt).
Proof.
  intros H. unfold update. by rewrite (bind_ok _ _ _ _ _ (getitem_run _ _ _ H)).
Qed.

Lemma contains_run (session_id : string) (w : World) :
  contains session_id w = (w, Ok (bool_decide (is_Some (sessions w !! session_id)))).
Proof. done. Qed.

(** ** Ticket numbers *)

Lemma ticket_number_of_unfold (n : nat) :
  ticket_number_of n = String "Q" (zeros (3 - String.length (str_nat n)) +:+ str_nat n).
Proof. done. Qed.

Lemma uint_of_string_zeros (k : nat) (s : string) :
  Nat.of_uint <$> NilEmpty.uint_of_string (zeros k +:+ s)
  = Nat.of_uint <$> NilEmpty.uint_of_string s.
Proof.
  induction k as [|k IH]; [done|].
  simpl. destruct (NilEmpty.uint_of_string (zeros k +:+ s)) as [d|] eqn:E;
    destruct (NilEmpty.uint_of_string s) as [d'|] eqn:E'; simpl in *; done.
Qed.

(** The number can be read back from the ticket: the padding adds no value. *)
Lemma ticket_value_of (n : nat) : ticket_value (ticket_number_of n) = Some n.
Proof.
  rewrite ticket_number_of_unfold. unfold ticket_value.
  rewrite uint_of_string_zeros. unfold str_nat.
  rewrite NilEmpty.usu. simpl. f_equal. apply DecimalNat.Unsigned.of_to.
Qed.

Lemma ticket_number_of_inj (n m : nat) :
  ticket_number_of n = ticket_number_of m → n = m.
Proof.
  intros H. apply (f_equal ticket_value) in H.
  rewrite !ticket_value_of in H. by inversion H.
Qed.

Lemma with_sessions_ensure (s : gmap string SessionState) (session_id : string)
    (w : World) :
  with_sessions s (ensure session_id w) = with_sessions s w.
Proof. unfold ensure. by destruct (sessions w !! session_id). Qed.

Lemma insert_ensure (session_id : string) (st : SessionState) (w : World) :
  <[session_id := st]> (sessions (ensure session_id w))
  = <[session_id := st]> (sessions w).
Proof.
  unfold ensure. destruct (sessions w !! session_id); [done|].
  simpl. by rewrite insert_insert_eq.
Qed.

Lemma create_ticket_run (session_id : string) (w : World) :
  create_ticket session_id w
  = (with_sessions
       (<[session_id := set_ticket_counter (counter_of w session_id + 1)
                          (session_or_fresh w session_id)]> (sessions w)) w,
     Ok (ticket_response (counter_of w session_id + 1))).
Proof.
  unfold create_ticket.
  rewrite (bind_ok _ _ _ _ _ (create_if_absent_run _ _)).
  rewrite (bind_ok _ _ _ _ _ (update_run _ _ _ _ (ensure_lookup _ _))).
  rewrite insert_ensure, with_sessions_ensure.
  erewrite bind_ok; last by (apply getitem_run; simpl; apply lookup_insert_eq).
  unfold counter_of, session_or_fresh.
  by destruct (sessions w !! session_id).
Qed.

Lemma create_ticket_counter (session_id : string) (w : World) :
  counter_of (create_ticket session_id w).1 session_id
  = counter_of w session_id + 1.
Proof.
  rewrite create_ticket_run. unfold counter_of at 1. simpl.
  by rewrite lookup_insert_eq.
Qed.

Lemma call_n_create_ticket (n : nat) (session_id : string) (w : World) :
  ∃ w' rs,
    call_n n (create_ticket session_id) w = (w', Ok rs)
    ∧ rs = ticket_response <$> seq (counter_of w session_id + 1) n
    ∧ counter_of w' session_id = counter_of w session_id + n.
Proof.
  revert w. induction n as [|n IH]; intros w.
  - exists w, []. simpl. split; [done|]. split; [done|lia].
  - destruct (IH (create_ticket session_id w).1) as (w' & rs & Hrun & Hrs & Hc).
    rewrite create_ticket_counter in Hrs, Hc.
    exists w', (ticket_response (counter_of w session_id + 1) :: rs).
    split; [|split].
    + assert (create_ticket session_id w
              = ((create_ticket session_id w).1,
                 Ok (ticket_response (counter_of w session_id + 1)))) as Hstep
        by (by rewrite create_ticket_run).
      simpl. rewrite (bind_ok _ _ _ _ _ Hstep).
      rewrite (bind_ok _ _ _ _ _ Hrun). reflexivity.
    + rewrite Hrs. simpl.
      by replace (S (counter_of w session_id + 1))
        with (counter_of w session_id + 1 + 1) by lia.
    + lia.
Qed.

Lemma ticket_field_response (n : nat) :
  ticket_field (ticket_response n) = Some (JStr (ticket_number_of n)).
Proof. reflexivity. Qed.

(** ** Export of the snapshot *)

Lemma contains_true (session_id : string) (w : World) (st : SessionState) :
  sessions w !! session_id = Some st → contains session_id w = (w, Ok true).
Proof.
  intros H. rewrite contains_run, bool_decide_eq_true_2; [done | by eexists].
Qed.

Lemma contains_false (session_id : string) (w : World) :
  sessions w !! session_id = None → contains session_id w = (w, Ok false).
Proof.
  intros H. rewrite contains_run, bool_decide_eq_false_2; [done|].
  rewrite H. by intros [? ?].
Qed.

Lemma export_json_run (w : World) (session_id : string) :
  export_json session_id w
  = (w, Ok (match sessions w !! session_id with
            | None => not_found_response
            | Some st => snapshot_response session_id st
            end)).
Proof.
  unfold export_json.
  destruct (sessions w !! session_id) as [st|] eqn:E.
  - rewrite (bind_ok _ _ _ _ _ (contains_true _ _ _ E)).
    by rewrite (bind_ok _ _ _ _ _ (getitem_run _ _ _ E)).
  - by rewrite (bind_ok _ _ _ _ _ (contains_false _ _ E)).
Qed.


(** ** Export of the feedback *)

Lemma string_app_cons (x : ascii) (a b : string) :
  String x a +:+ b = String x (a +:+ b).
Proof. reflexivity. Qed.

Lemma string_app_assoc (a b c : string) : (a +:+ b) +:+ c = a +:+ (b +:+ c).
Proof.
  induction a as [|x a IH]; [done|].
  by rewrite !string_app_cons, IH.
Qed.

Lemma string_app_empty_r (a : string) : a +:+ "" = a.
Proof.
  induction a as [|x a IH]; [done|].
  by rewrite string_app_cons, IH.
Qed.

Lemma concat_empty_sep_cons (a : string) (l : list string) :
  String.concat "" (a :: l) = a +:+ String.concat "" l.
Proof. destruct l; simpl; [by rewrite string_app_empty_r | done]. Qed.

(** The loop [csv_data += row] builds the header followed by the rows. *)
Lemma csv_loop (fbs : list FeedbackEntry) (acc : string) :
  fold_left (λ acc fb, acc +:+ csv_row fb) fbs acc
  = acc +:+ String.concat "" (csv_row <$> fbs).
Proof.
  revert acc. induction fbs as [|fb fbs IH]; intros acc.
  - simpl. by rewrite string_app_empty_r.
  - cbn [fold_left]. rewrite IH, fmap_cons, concat_empty_sep_cons.
    apply string_app_assoc.
Qed.

Lemma export_feedback_run (w : World) (session_id : string) :
  export_feedback session_id w
  = (w, Ok (match sessions w !! session_id with
            | Some st =>
                if nonempty (feedback st)
                then feedback_response session_id (feedback st)
                else no_feedback_response
            | None => no_feedback_response
            end)).
Proof.
  unfold export_feedback.
  destruct (sessions w !! session_id) as [st|] eqn:E.
  - rewrite (bind_ok _ _ _ _ _ (contains_true _ _ _ E)).
    erewrite bind_ok; last by (erewrite bind_ok; [|by apply getitem_run]).
    destruct (nonempty (feedback st)); [|done].
    rewrite (bind_ok _ _ _ _ _ (getitem_run _ _ _ E)).
    unfold feedback_response.
    by rewrite concat_empty_sep_cons, csv_loop.
  - rewrite (bind_ok _ _ _ _ _ (contains_false _ _ E)).
    reflexivity.
Qed.



(** ** Clearing a session *)

Lemma world_eta_disk (w : World) : with_disk (disk w) w = w.
Proof. by destruct w. Qed.

Lemma delete_upload_run (name : string) (w : World) :
  delete_upload name w
  = (with_disk (remove_file (path_join UPLOAD_FOLDER name) (disk w)) w, Ok tt).
Proof.
  unfold delete_upload, remove_file, path_exists, os_remove. unfold_M.
  destruct (disk w !! path_join UPLOAD_FOLDER name) as [[data|]|] eqn:E.
  - rewrite bool_decide_eq_true_2; [|by eexists]. by rewrite E.
  - rewrite bool_decide_eq_true_2; [|by eexists]. rewrite E.
    by rewrite world_eta_disk.
  - rewrite bool_decide_eq_false_2; [|by intros [? ?]].
    by rewrite world_eta_disk.
Qed.

Lemma for_each_delete_upload_run (names : list string) (w : World) :
  for_each names delete_upload w
  = (with_disk (disk_after_clear names (disk w)) w, Ok tt).
Proof.
  unfold for_each. revert w. induction names as [|name names IH]; intros w.
  - simpl. by rewrite world_eta_disk.
  - cbn [for_fold]. rewrite (bind_ok _ _ _ _ _ (delete_upload_run _ _)).
    by rewrite IH.
Qed.

Lemma clear_chat_run (w : World) (session_id : string) (st : SessionState) :
  sessions w !! session_id = Some st →
  clear_chat session_id w
  = ({| sessions := <[session_id := cleared st]> (sessions w);
        disk := disk_after_clear (files st) (disk w) |},
     Ok (jsonify [("success", JTrue)])).
Proof.
  intros E. unfold clear_chat.
  rewrite (bind_ok _ _ _ _ _ (contains_true _ _ _ E)).
  rewrite (bind_ok _ _ _ _ _ (getitem_run _ _ _ E)).
  rewrite (bind_ok _ _ _ _ _ (for_each_delete_upload_run _ _)).
  erewrite bind_ok; last by (apply update_run; exact E).
  erewrite bind_ok; last by (apply update_run; simpl; apply lookup_insert_eq).
  unfold with_sessions, with_disk. simpl. by rewrite insert_insert_eq.
Qed.

Lemma clear_chat_absent (w : World) (session_id : string) :
  sessions w !! session_id = None →
  clear_chat session_id w
  = (w, Ok (jsonify [("success", JFalse); ("error", JStr "Session not found")])).
Proof.
  intros E. unfold clear_chat.
  by rewrite (bind_ok _ _ _ _ _ (contains_false _ _ E)).
Qed.

(** C3: on an existing session the clear handler answers with success,
    leaves the session with no message and no file, and with the ticket
    counter and the feedback list it had; the other sessions are not
    touched, and the feedback export answers after the clear what it
    answered before. *)
Theorem clear_chat_keeps_feedback (w : World) (session_id : string)
    (st : SessionState) :
  sessions w !! session_id = Some st →
  ∃ w',
    clear_chat session_id w = (w', Ok (jsonify [("success", JTrue)]))
    ∧ sessions w' !! session_id
      = Some {| messages := []; files := [];
                ticket_counter := ticket_counter st; feedback := feedback st |}
    ∧ (∀ other, other ≠ session_id → sessions w' !! other = sessions w !! other)
    ∧ (export_feedback session_id w').2 = (export_feedback session_id w).2.
Proof.
  intros E. eexists. split; [by apply clear_chat_run|].
  split; [|split].
  - simpl. by rewrite lookup_insert_eq.
  - intros other Hne. simpl. by rewrite lookup_insert_ne.
  - rewrite !export_feedback_run. simpl. by rewrite lookup_insert_eq, E.
Qed.

Lemma clear_chat_keeps_feedback_witness :
  ∃ w',
    clear_chat "s1" sample_world = (w', Ok (jsonify [("success", JTrue)]))
    ∧ sessions w' !! "s1"
      = Some {| messages := []; files := []; ticket_counter := 2;
                feedback := [sample_feedback] |}
    ∧ (export_feedback "s1" w').2 = (export_feedback "s1" sample_world).2.
Proof.
  destruct (clear_chat_keeps_feedback sample_world "s1" sample_session)
    as (w' & H1 & H2 & _ & H3).
  - reflexivity.
  - exists w'. split; [exact H1|]. split; [exact H2|exact H3].
Defined.

(** ** First reference to a session *)

Lemma ensure_absent (session_id : string) (w : World) :
  sessions w !! session_id = None → ensure session_id w = with_fresh session_id w.
Proof. intros H. unfold ensure. by rewrite H. Qed.

Lemma ensure_idem (session_id : string) (w : World) :
  ensure session_id (ensure session_id w) = ensure session_id w.
Proof.
  pose proof (ensure_lookup session_id w) as H.
  by rewrite (ensure_present _ _ _ H).
Qed.

Lemma create_if_absent_then {A : Type} (session_id : string) (k : M A) (w : World) :
  (create_if_absent session_id ;; k) w = k (ensure session_id w).
Proof. by rewrite (bind_ok _ _ _ _ _ (create_if_absent_run _ _)). Qed.

(** A creating handler behaves as on the store where the id is there. *)
Lemma creating_handler_ensure (r : Request) (w : World) :
  creates r = true → handle r w = handle r (ensure (session_of r) w).
Proof.
  destruct r; intros H; try discriminate; simpl;
    unfold init_session, upload_file, chat, create_ticket, submit_feedback;
    by rewrite !create_if_absent_then, ensure_idem.
Qed.

Lemma present_ensure (session_id : string) (w : World) :
  present session_id (ensure session_id w).
Proof. unfold present. rewrite ensure_lookup. by eexists. Qed.

Lemma init_session_run (session_id : string) (w : World) :
  init_session session_id w
  = (ensure session_id w,
     Ok (jsonify [("success", JTrue);
                  ("files", json_names (files (session_or_fresh w session_id)));
                  ("ticket_counter",
                   json_nat (ticket_counter (session_or_fresh w session_id)))])).
Proof.
  unfold init_session. rewrite create_if_absent_then.
  by rewrite (bind_ok _ _ _ _ _ (getitem_run _ _ _ (ensure_lookup _ _))).
Qed.

Lemma submit_feedback_run (session_id : string) (rating' comment' : pyval)
    (now : string) (w : World) :
  submit_feedback session_id rating' comment' now w
  = (with_sessions
       (<[session_id :=
            set_feedback
              (feedback (session_or_fresh w session_id)
               ++ [{| rating := rating'; comment := comment'; fb_timestamp := now |}])
              (session_or_fresh w session_id)]> (sessions w)) w,
     Ok (jsonify [("success", JTrue)])).
Proof.
  unfold submit_feedback. rewrite create_if_absent_then.
  rewrite (bind_ok _ _ _ _ _ (update_run _ _ _ _ (ensure_lookup _ _))).
  by rewrite insert_ensure, with_sessions_ensure.
Qed.

(** The upload loop keeps the session it appends to, also when a save
    raises. *)
Lemma update_present (session_id : string) (f : SessionState → SessionState)
    (w : World) :
  present session_id w → present session_id (update session_id f w).1.
Proof.
  intros [st E]. rewrite (update_run _ _ _ _ E). unfold present. simpl.
  rewrite lookup_insert_eq. by eexists.
Qed.

Lemma save_sessions (path : string) (data : list byte) (w : World) :
  sessions (save path data w).1 = sessions w.
Proof.
  unfold save.
  destruct (disk w !! path) as [[?|]|]; try done;
    destruct (String.eqb (dirname path) ""); try done;
    by destruct (disk w !! dirname path) as [[?|]|].
Qed.

Lemma upload_one_present (session_id : string) (acc : list string)
    (item : Z * FileStorage) (w : World) :
  present session_id w → present session_id (upload_one session_id acc item w).1.
Proof.
  intros H. destruct item as [epoch file]. unfold upload_one.
  destruct (truthy (PyStr (filename file))); [|done].
  pose proof (save_sessions (path_join UPLOAD_FOLDER (stored_name epoch (filename file)))
                (stream file) w) as Hs.
  destruct (save (path_join UPLOAD_FOLDER (stored_name epoch (filename file)))
              (stream file) w) as [w1 [[]|e]] eqn:Esave; simpl in Hs.
  - rewrite (bind_ok _ _ _ _ _ Esave).
    assert (present session_id w1) as H1 by (unfold present; by rewrite Hs).
    destruct H1 as [st E1].
    rewrite (bind_ok _ _ _ _ _ (update_run _ _ _ _ E1)). unfold present. simpl.
    rewrite lookup_insert_eq. by eexists.
  - rewrite (bind_raise _ _ _ _ _ Esave). unfold present. simpl. by rewrite Hs.
Qed.

Lemma upload_loop_present (session_id : string) (uploads : list (Z * FileStorage))
    (acc : list string) (w : World) :
  present session_id w →
  present session_id (for_fold uploads (upload_one session_id) acc w).1.
Proof.
  revert acc w. induction uploads as [|item uploads IH]; intros acc w H; [done|].
  cbn [for_fold].
  pose proof (upload_one_present session_id acc item w H) as H1.
  destruct (upload_one session_id acc item w) as [w1 [acc1|e]] eqn:E; simpl in H1.
  - rewrite (bind_ok _ _ _ _ _ E). by apply IH.
  - by rewrite (bind_raise _ _ _ _ _ E).
Qed.

Lemma upload_file_present (session_id : string) (uploads : list (Z * FileStorage))
    (w : World) :
  present session_id (upload_file session_id uploads w).1.
Proof.
  unfold upload_file. rewrite create_if_absent_then.
  pose proof (upload_loop_present session_id uploads [] _ (present_ensure session_id w)) as H.
  destruct (for_fold uploads (upload_one session_id) [] (ensure session_id w))
    as [w1 [names|e]] eqn:E; simpl in H.
  - by rewrite (bind_ok _ _ _ _ _ E).
  - by rewrite (bind_raise _ _ _ _ _ E).
Qed.

(** ** Message assembly *)

(** On an audio name the chain always assigns: the stale value and the
    unbound variable are never read. *)
Lemma assign_mime_type_audio (name : string) (mime_type : option string) :
  is_audio name = true →
  ∃ mt, mime_type_of name = Some mt ∧ assign_mime_type name mime_type = Some mt.
Proof.
  unfold is_audio, endswith_any, audio_suffixes, mime_type_of, mime_table,
    assign_mime_type. cbn [existsb find fst].
  destruct (endswith (lower name) ".wav"); [by eexists|].
  destruct (endswith (lower name) ".mp3"); [by eexists|].
  destruct (endswith (lower name) ".aiff"); [by eexists|].
  destruct (endswith (lower name) ".aac"); [by eexists|].
  destruct (endswith (lower name) ".ogg"); [by eexists|].
  destruct (endswith (lower name) ".flac"); [by eexists|].
  discriminate.
Qed.

Lemma add_audio_world (locals : list json * option string) (name : string)
    (w : World) :
  (add_audio locals name w).1 = w.
Proof.
  destruct locals as [user_parts mime_type].
  unfold add_audio, path_exists, read_bytes. unfold_M.
  destruct (disk w !! path_join UPLOAD_FOLDER name) as [[data|]|] eqn:E.
  - rewrite bool_decide_eq_true_2; [|by eexists].
    destruct (endswith_any (lower name) audio_suffixes); [|done].
    rewrite E. by destruct (assign_mime_type name mime_type).
  - rewrite bool_decide_eq_true_2; [|by eexists].
    destruct (endswith_any (lower name) audio_suffixes); [|done].
    by rewrite E.
  - by rewrite bool_decide_eq_false_2; [|by intros [? ?]].
Qed.

(** A name that is not on the disk, or has no audio suffix, leaves the
    locals as they are and raises nothing. *)
Lemma add_audio_skip (locals : list json * option string) (name : string)
    (w : World) :
  is_audio name = false ∨ disk w !! path_join UPLOAD_FOLDER name = None →
  add_audio locals name w = (w, Ok locals).
Proof.
  intros H. destruct locals as [user_parts mime_type].
  unfold add_audio, path_exists. unfold_M.
  destruct (disk w !! path_join UPLOAD_FOLDER name) as [n|] eqn:E.
  - destruct H as [H|H]; [|done].
    rewrite bool_decide_eq_true_2; [|by eexists].
    unfold is_audio in H. by rewrite H.
  - by rewrite bool_decide_eq_false_2; [|by intros [? ?]].
Qed.

(** A regular file with an audio suffix puts its part in front. *)
Lemma add_audio_file (user_parts : list json) (mime_type : option string)
    (name : string) (data : list byte) (w : World) :
  is_audio name = true →
  disk w !! path_join UPLOAD_FOLDER name = Some (File data) →
  ∃ part mt,
    qualifying_part (disk w) name = Some part
    ∧ add_audio (user_parts, mime_type) name w
      = (w, Ok (part :: user_parts, Some mt)).
Proof.
  intros Ha E.
  destruct (assign_mime_type_audio name mime_type Ha) as (mt & Hof & Hassign).
  exists (audio_part mt (b64encode data)), mt. split.
  - unfold qualifying_part. by rewrite E, Ha, Hof.
  - unfold add_audio, path_exists, read_bytes. unfold_M.
    rewrite bool_decide_eq_true_2; [|by eexists].
    unfold is_audio in Ha. by rewrite Ha, E, Hassign.
Qed.

(** A folder under an audio name makes the read raise. *)
Lemma add_audio_dir (locals : list json * option string) (name : string)
    (w : World) :
  is_audio name = true →
  disk w !! path_join UPLOAD_FOLDER name = Some Dir →
  add_audio locals name w
  = (w, Raise (IsADirectoryError (path_join UPLOAD_FOLDER name))).
Proof.
  intros Ha E. destruct locals as [user_parts mime_type].
  unfold add_audio, path_exists, read_bytes. unfold_M.
  rewrite bool_decide_eq_true_2; [|by eexists].
  unfold is_audio in Ha. by rewrite Ha, E.
Qed.

Lemma for_fold_app {A S : Type} (l1 l2 : list A) (body : S → A → M S) (acc : S)
    (w : World) :
  for_fold (l1 ++ l2) body acc w
  = (acc' ← for_fold l1 body acc; for_fold l2 body acc') w.
Proof.
  revert acc w. induction l1 as [|x l1 IH]; intros acc w; [done|].
  cbn [for_fold app].
  unfold mbind, M_bind.
  destruct (body acc x w) as [w1 [acc1|e]]; [|reflexivity].
  rewrite IH. reflexivity.
Qed.

Lemma add_audio_loop_world (names : list string)
    (locals : list json * option string) (w : World) :
  (for_fold names add_audio locals w).1 = w.
Proof.
  revert locals. induction names as [|name names IH]; intros locals; [done|].
  cbn [for_fold].
  pose proof (add_audio_world locals name w) as Hw.
  destruct (add_audio locals name w) as [w1 [locals1|e]] eqn:E;
    simpl in Hw; subst w1.
  - rewrite (bind_ok _ _ _ _ _ E). apply IH.
  - by rewrite (bind_raise _ _ _ _ _ E).
Qed.

Lemma build_user_parts_world (message : pyval) (names : list string) (w : World) :
  (build_user_parts message names w).1 = w.
Proof.
  unfold build_user_parts.
  pose proof (add_audio_loop_world names
    (if truthy message then [text_part message] else [], None) w) as Hw.
  destruct (for_fold names add_audio
    (if truthy message then [text_part message] else [], None) w)
    as [w1 [locals1|e]] eqn:E; simpl in Hw; subst w1.
  - by rewrite (bind_ok _ _ _ _ _ E).
  - by rewrite (bind_raise _ _ _ _ _ E).
Qed.

(** When no audio name points at a folder, the loop puts the parts of the
    qualifying files in front of what was there, the last one first. *)
Lemma add_audio_loop_run (names : list string) (user_parts : list json)
    (mime_type : option string) (w : World) :
  (∀ name, name ∈ names → is_audio name = true →
     disk w !! path_join UPLOAD_FOLDER name ≠ Some Dir) →
  ∃ mt,
    for_fold names add_audio (user_parts, mime_type) w
    = (w, Ok (reverse (audio_parts (disk w) names) ++ user_parts, mt)).
Proof.
  revert user_parts mime_type.
  induction names as [|name names IH]; intros user_parts mime_type Hok.
  - by exists mime_type.
  - cbn [for_fold]. unfold audio_parts. cbn [omap list_omap].
    fold (audio_parts (disk w) names).
    assert (∀ n, n ∈ names → is_audio n = true →
              disk w !! path_join UPLOAD_FOLDER n ≠ Some Dir) as Hrest
      by (intros n Hn; apply Hok; by right).
    destruct (is_audio name) eqn:Ha.
    + destruct (disk w !! path_join UPLOAD_FOLDER name) as [[data|]|] eqn:E.
      * destruct (add_audio_file user_parts mime_type name data w Ha E)
          as (part & mt & Hq & Hrun).
        rewrite Hq, (bind_ok _ _ _ _ _ Hrun).
        destruct (IH (part :: user_parts) (Some mt) Hrest) as [mt' Hloop].
        exists mt'. rewrite Hloop, reverse_cons, <- app_assoc. done.
      * exfalso. apply (Hok name); [by left | done | done].
      * rewrite (bind_ok _ _ _ _ _ (add_audio_skip _ _ _ (or_intror E))).
        unfold qualifying_part. rewrite E. by apply IH.
    + rewrite (bind_ok _ _ _ _ _ (add_audio_skip _ _ _ (or_introl Ha))).
      assert (qualifying_part (disk w) name = None) as ->.
      { unfold qualifying_part.
        destruct (disk w !! path_join UPLOAD_FOLDER name) as [[?|]|]; try done.
        by rewrite Ha. }
      by apply IH.
Qed.

(** C4: for a message that is truthy (a text that is not empty), and when
    no audio name of the list points at a folder, the assembly returns the
    audio parts of the qualifying files in the reverse of the stored order
    (the last file of the list first), followed by the text part, which is
    last. *)
Theorem user_parts_order (w : World) (message : pyval) (names : list string) :
  truthy message = true →
  (∀ name, name ∈ names → is_audio name = true →
     disk w !! path_join UPLOAD_FOLDER name ≠ Some Dir) →
  build_user_parts message names w
  = (w, Ok (reverse (audio_parts (disk w) names) ++ [text_part message])).
Proof.
  intros Ht Hok. unfold build_user_parts. rewrite Ht.
  destruct (add_audio_loop_run names [text_part message] None w Hok) as [mt H].
  by rewrite (bind_ok _ _ _ _ _ H).
Qed.

Lemma user_parts_order_witness :
  build_user_parts (PyStr "hi") ["a.wav"; "b.mp3"] two_files_world
  = (two_files_world,
     Ok [audio_part "audio/mp3" "TWE="; audio_part "audio/wav" "TWFu";
         text_part (PyStr "hi")]).
Proof.
  rewrite (user_parts_order two_files_world (PyStr "hi") ["a.wav"; "b.mp3"]).
  - reflexivity.
  - reflexivity.
  - intros name Hin _ Hdir.
    apply elem_of_cons in Hin as [->|Hin];
      [|apply elem_of_cons in Hin as [->|Hin]];
      [vm_compute in Hdir; discriminate
      |vm_compute in Hdir; discriminate
      |by apply elem_of_nil in Hin].
Defined.

Lemma add_audio_loop_skip (before after : list string) (name : string)
    (locals : list json * option string) (w : World) :
  is_audio name = false ∨ disk w !! path_join UPLOAD_FOLDER name = None →
  for_fold (before ++ name :: after) add_audio locals w
  = for_fold (before ++ after) add_audio locals w.
Proof.
  intros H. rewrite !for_fold_app.
  pose proof (add_audio_loop_world before locals w) as Hw.
  destruct (for_fold before add_audio locals w) as [w1 [locals1|e]] eqn:E;
    simpl in Hw; subst w1.
  - rewrite !(bind_ok _ _ _ _ _ E). cbn [for_fold].
    by rewrite (bind_ok _ _ _ _ _ (add_audio_skip _ _ _ H)).
  - by rewrite !(bind_raise _ _ _ _ _ E).
Qed.

(** C7: a stored name whose suffix is not one of the audio suffixes, or
    whose path is not on the disk, contributes no part and raises nothing:
    the loop step returns its locals as they were, and the assembly over a
    list that holds the name gives what it gives over the list without it,
    so the files before and after it are processed as usual. *)
Theorem skipped_file_contributes_nothing (w : World) (message : pyval)
    (before after : list string) (name : string) :
  is_audio name = false ∨ disk w !! path_join UPLOAD_FOLDER name = None →
  (∀ locals, add_audio locals name w = (w, Ok locals))
  ∧ qualifying_part (disk w) name = None
  ∧ build_user_parts message (before ++ name :: after) w
    = build_user_parts message (before ++ after) w.
Proof.
  intros H. split; [|split].
  - intros locals. by apply add_audio_skip.
  - unfold qualifying_part. destruct H as [H|H]; [|by rewrite H].
    destruct (disk w !! path_join UPLOAD_FOLDER name) as [[?|]|]; try done.
    by rewrite H.
  - unfold build_user_parts, mbind, M_bind.
    by rewrite (add_audio_loop_skip before after name _ w H).
Qed.

Lemma skipped_file_contributes_nothing_witness :
  build_user_parts (PyStr "hi") (["a.wav"] ++ "doc.pdf" :: ["b.mp3"]) two_files_world
  = build_user_parts (PyStr "hi") (["a.wav"] ++ ["b.mp3"]) two_files_world
  ∧ build_user_parts (PyStr "hi") ([] ++ "gone.wav" :: ["a.wav"]) two_files_world
    = build_user_parts (PyStr "hi") ([] ++ ["a.wav"]) two_files_world.
Proof.
  split.
  - apply (skipped_file_contributes_nothing two_files_world (PyStr "hi")
             ["a.wav"] ["b.mp3"] "doc.pdf").
    left. reflexivity.
  - apply (skipped_file_contributes_nothing two_files_world (PyStr "hi")
             [] ["a.wav"] "gone.wav").
    right. reflexivity.
Defined.

(** ** The chat handler *)

Lemma add_audio_disk (locals : list json * option string) (name : string)
    (w w' : World) :
  disk w = disk w' → (add_audio locals name w).2 = (add_audio locals name w').2.
Proof.
  intros Hd. destruct locals as [user_parts mime_type].
  unfold add_audio, path_exists, read_bytes. unfold_M. rewrite <- Hd.
  destruct (disk w !! path_join UPLOAD_FOLDER name) as [[data|]|] eqn:E.
  - rewrite bool_decide_eq_true_2; [|by eexists].
    destruct (endswith_any (lower name) audio_suffixes); [|done].
    rewrite <- Hd, E. by destruct (assign_mime_type name mime_type).
  - rewrite bool_decide_eq_true_2; [|by eexists].
    destruct (endswith_any (lower name) audio_suffixes); [|done].
    by rewrite <- Hd, E.
  - by rewrite bool_decide_eq_false_2; [|by intros [? ?]].
Qed.

Lemma add_audio_loop_disk (names : list string)
    (locals : list json * option string) (w w' : World) :
  disk w = disk w' →
  (for_fold names add_audio locals w).2 = (for_fold names add_audio locals w').2.
Proof.
  intros Hd. revert locals.
  induction names as [|name names IH]; intros locals; [done|].
  cbn [for_fold].
  pose proof (add_audio_world locals name w) as Hw.
  pose proof (add_audio_world locals name w') as Hw'.
  pose proof (add_audio_disk locals name w w' Hd) as Hr.
  destruct (add_audio locals name w) as [w1 r] eqn:E.
  destruct (add_audio locals name w') as [w1' r'] eqn:E'.
  simpl in Hw, Hw', Hr. subst w1 w1' r'.
  destruct r as [locals1|e].
  - rewrite (bind_ok _ _ _ _ _ E), (bind_ok _ _ _ _ _ E'). apply IH.
  - by rewrite (bind_raise _ _ _ _ _ E), (bind_raise _ _ _ _ _ E').
Qed.

(** The assembly reads the disk only. *)
Lemma build_user_parts_disk (message : pyval) (names : list string) (w w' : World) :
  disk w = disk w' →
  (build_user_parts message names w).2 = (build_user_parts message names w').2.
Proof.
  intros Hd. unfold build_user_parts.
  pose proof (add_audio_loop_disk names
    (if truthy message then [text_part message] else [], None) w w' Hd) as Hr.
  unfold mbind, M_bind.
  destruct (for_fold names add_audio _ w) as [w1 r].
  destruct (for_fold names add_audio _ w') as [w1' r'].
  simpl in Hr. subst r'. by destruct r.
Qed.

Lemma chat_try_run (model : option GenerativeModel) (session_id : string)
    (message is_voice_input : pyval) (now1 now2 : string) (w : World) :
  chat_try model session_id message is_voice_input now1 now2 (ensure session_id w)
  = match model with
    | None => (after_user_message w session_id message now1, Ok unavailable_response)
    | Some generate_content =>
        match (build_user_parts message
                 (files (session_or_fresh w session_id)) w).2 with
        | Raise e => (after_user_message w session_id message now1, Raise e)
        | Ok user_parts =>
            match generate_content (contents_of user_parts) with
            | Raise e => (after_user_message w session_id message now1, Raise e)
            | Ok text =>
                (after_answer w session_id message now1 text now2,
                 Ok (chat_response text is_voice_input))
            end
        end
    end.
Proof.
  unfold chat_try.
  rewrite (bind_ok _ _ _ _ _ (update_run _ _ _ _ (ensure_lookup _ _))).
  rewrite insert_ensure, with_sessions_ensure.
  fold (user_message message now1).
  fold (with_user_message w session_id message now1).
  fold (after_user_message w session_id message now1).
  destruct model as [generate_content|]; [|done].
  set (w1 := after_user_message w session_id message now1).
  assert (sessions w1 !! session_id
          = Some (with_user_message w session_id message now1)) as E1
    by (subst w1; simpl; apply lookup_insert_eq).
  rewrite (bind_ok _ _ _ _ _ (getitem_run _ _ _ E1)).
  change (files (with_user_message w session_id message now1))
    with (files (session_or_fresh w session_id)).
  pose proof (build_user_parts_world message
                (files (session_or_fresh w session_id)) w1) as Hw.
  pose proof (build_user_parts_disk message
                (files (session_or_fresh w session_id)) w1 w eq_refl) as Hr.
  destruct (build_user_parts message (files (session_or_fresh w session_id)) w1)
    as [w1' r] eqn:B. simpl in Hw, Hr. subst w1'. rewrite <- Hr.
  destruct r as [user_parts|e]; [|by rewrite (bind_raise _ _ _ _ _ B)].
  rewrite (bind_ok _ _ _ _ _ B). fold (contents_of user_parts).
  destruct (generate_content (contents_of user_parts)) as [text|e] eqn:G.
  - assert (call_model generate_content (contents_of user_parts) w1 = (w1, Ok text))
      as C by (unfold call_model; by rewrite G).
    rewrite (bind_ok _ _ _ _ _ C).
    rewrite (bind_ok _ _ _ _ _ (update_run _ _ _ _ E1)).
    subst w1. unfold after_user_message, after_answer, with_sessions. simpl.
    by rewrite insert_insert_eq.
  - assert (call_model generate_content (contents_of user_parts) w1 = (w1, Raise e))
      as C by (unfold call_model; by rewrite G).
    by rewrite (bind_raise _ _ _ _ _ C).
Qed.

Lemma chat_run (model : option GenerativeModel) (session_id : string)
    (message is_voice_input : pyval) (now1 now2 : string) (w : World) :
  chat model session_id message is_voice_input now1 now2 w
  = match chat_try model session_id message is_voice_input now1 now2
            (ensure session_id w) with
    | (w', Ok r) => (w', Ok r)
    | (w', Raise e) => (w', Ok (error_response e))
    end.
Proof.
  unfold chat. rewrite create_if_absent_then. unfold try_except.
  by destruct (chat_try model session_id message is_voice_input now1 now2
                 (ensure session_id w)) as [w' [r|e]].
Qed.




(** C10: the chat handler appends the user message before anything else:
    in every case the messages of the session afterwards are the former
    ones, then the user message, then a tail. When the model raises on the
    assembled parts the tail is empty: the session is the former one with
    the user message appended and nothing else changed, no assistant
    message is stored, and the response is the error response. *)
Theorem chat_failure_keeps_user_message (model : option GenerativeModel)
    (session_id : string) (message is_voice_input : pyval) (now1 now2 : string)
    (w : World) :
  ∃ w' r st',
    chat model session_id message is_voice_input now1 now2 w = (w', Ok r)
    ∧ sessions w' !! session_id = Some st'
    ∧ (∃ tail,
         messages st'
         = messages (session_or_fresh w session_id)
           ++ {| role := user; content := message; timestamp := now1 |} :: tail)
    ∧ (∀ generate_content user_parts e,
         model = Some generate_content →
         (build_user_parts message (files (session_or_fresh w session_id)) w).2
         = Ok user_parts →
         generate_content (contents_of user_parts) = Raise e →
         r = error_response e
         ∧ st' = set_messages
                   (messages (session_or_fresh w session_id)
                    ++ [{| role := user; content := message; timestamp := now1 |}])
                   (session_or_fresh w session_id)
         ∧ disk w' = disk w
         ∧ ∀ other, other ≠ session_id →
             sessions w' !! other = sessions w !! other).
Proof.
  rewrite chat_run, chat_try_run.
  destruct model as [generate_content|].
  - destruct (build_user_parts message _ w).2 as [user_parts|e] eqn:B.
    + destruct (generate_content (contents_of user_parts)) as [text|e] eqn:G.
      * eexists _, _, _. split; [done|]. split; [apply lookup_insert_eq|].
        split.
        -- exists [assistant_message text now2]. simpl.
           by rewrite <- app_assoc.
        -- intros g parts e [= <-] [= <-] G'. congruence.
      * eexists _, _, _. split; [done|]. split; [apply lookup_insert_eq|].
        split; [by exists []|].
        intros g parts e' [= <-] [= <-] G'.
        assert (e' = e) as -> by congruence.
        repeat split; try done.
        intros other Hne. simpl. by rewrite lookup_insert_ne.
    + eexists _, _, _. split; [done|]. split; [apply lookup_insert_eq|].
      split; [by exists []|]. intros g parts e' _ [=].
  - eexists _, _, _. split; [done|]. split; [apply lookup_insert_eq|].
    split; [by exists []|]. intros g parts e' [=].
Qed.

Lemma chat_failure_keeps_user_message_witness :
  ∃ w',
    (chat (Some failing_model) "s1" (PyStr "hi") (PyBool false)
       "2024-05-01T10:01:00" "2024-05-01T10:01:02" sample_world).1 = w'
    ∧ messages <$> sessions w' !! "s1"
      = Some [{| role := user; content := PyStr "hello";
                 timestamp := "2024-05-01T09:59:00" |};
              {| role := user; content := PyStr "hi";
                 timestamp := "2024-05-01T10:01:00" |}].
Proof.
  destruct (chat_failure_keeps_user_message (Some failing_model) "s1" (PyStr "hi")
              (PyBool false) "2024-05-01T10:01:00" "2024-05-01T10:01:02"
              sample_world) as (w' & r & st' & Hrun & Hst & _ & H).
  destruct (H failing_model
              [audio_part "audio/wav" "TWFu"; text_part (PyStr "hi")]
              (ModelError "429 quota exceeded"))
    as (_ & -> & _); [reflexivity | reflexivity | reflexivity |].
  exists w'. split; [by rewrite Hrun|]. by rewrite Hst.
Defined.

(** ** The first operation on an unseen id *)

Lemma chat_present (model : option GenerativeModel) (session_id : string)
    (message is_voice_input : pyval) (now1 now2 : string) (w : World) :
  present session_id (chat model session_id message is_voice_input now1 now2 w).1.
Proof.
  rewrite chat_run, chat_try_run. unfold present.
  destruct model as [generate_content|].
  - destruct (build_user_parts message _ w).2 as [user_parts|e].
    + destruct (generate_content (contents_of user_parts)); simpl;
        rewrite lookup_insert_eq; by eexists.
    + simpl. rewrite lookup_insert_eq. by eexists.
  - simpl. rewrite lookup_insert_eq. by eexists.
Qed.

Lemma creating_handler_present (r : Request) (w : World) :
  creates r = true → present (session_of r) (handle r w).1.
Proof.
  destruct r; intros H; try discriminate; simpl.
  - rewrite init_session_run. apply present_ensure.
  - apply upload_file_present.
  - apply chat_present.
  - rewrite create_ticket_run. unfold present. simpl.
    rewrite lookup_insert_eq. by eexists.
  - rewrite submit_feedback_run. unfold present. simpl.
    rewrite lookup_insert_eq. by eexists.
Qed.

(** C1 as stated, for every kind of operation, fails:
    on a store that has never seen "s1", the two exports and the clear
    leave the store without a session for "s1". *)
Lemma export_and_clear_create_nothing :
  sessions empty_world !! "s1" = None
  ∧ sessions (handle (ExportJson "s1") empty_world).1 !! "s1" = None
  ∧ sessions (handle (ExportFeedback "s1") empty_world).1 !! "s1" = None
  ∧ sessions (handle (Clear "s1") empty_world).1 !! "s1" = None.
Proof. repeat split; reflexivity. Qed.

(** C1, amended: for an id that is not in the store, a handler that starts
    with the create-if-absent block (init_session, upload, chat,
    create-ticket, feedback) behaves as on the store where the id holds a
    session with no message, no file, a ticket counter of 0 and no
    feedback, and the id is in the store afterwards; init_session leaves
    exactly this session. The snapshot export, the feedback export and the
    clear leave the world as it is, the id still absent, and answer with
    an error. *)
Theorem first_reference (r : Request) (w : World) :
  sessions w !! session_of r = None →
  if creates r then
    handle r w
    = handle r
        (with_sessions
           (<[session_of r :=
                {| messages := []; files := []; ticket_counter := 0;
                   feedback := [] |}]> (sessions w)) w)
    ∧ is_Some (sessions (handle r w).1 !! session_of r)
    ∧ (∀ session_id, r = InitSession session_id →
         sessions (handle r w).1 !! session_id
         = Some {| messages := []; files := []; ticket_counter := 0;
                   feedback := [] |})
  else
    (handle r w).1 = w
    ∧ sessions (handle r w).1 !! session_of r = None
    ∧ ∃ resp, (handle r w).2 = Ok resp ∧ is_Some (get "error" (body resp)).
Proof.
  intros E. destruct (creates r) eqn:C.
  - split; [|split].
    + rewrite (creating_handler_ensure r w C). by rewrite (ensure_absent _ _ E).
    + by apply creating_handler_present.
    + intros session_id ->. simpl in *. rewrite init_session_run.
      cbn [fst]. rewrite ensure_lookup. unfold session_or_fresh. by rewrite E.
  - destruct r; try discriminate; simpl in *.
    + rewrite export_json_run, E. repeat split; [done|]. by eexists.
    + rewrite export_feedback_run, E. repeat split; [done|]. by eexists.
    + rewrite (clear_chat_absent _ _ E). repeat split; [done|]. by eexists.
Qed.

Lemma first_reference_witness :
  sessions (handle (CreateTicket "s9") sample_world).1 !! "s9"
  = Some {| messages := []; files := []; ticket_counter := 1; feedback := [] |}
  ∧ (handle (ExportJson "s9") sample_world).1 = sample_world.
Proof.
  split.
  - destruct (first_reference (CreateTicket "s9") sample_world) as (H & _ & _);
      [reflexivity|].
    rewrite H. reflexivity.
  - destruct (first_reference (ExportJson "s9") sample_world) as (H & _ & _);
      [reflexivity|].
    exact H.
Defined.

(** ** Uploads *)

Lemma save_run (path : string) (data : list byte) (w : World) :
  can_save (disk w) path = true →
  save path data w = (with_disk (<[path := File data]> (disk w)) w, Ok tt).
Proof.
  unfold can_save, save. intros H.
  destruct (disk w !! path) as [[?|]|]; try done;
    destruct (String.eqb (dirname path) ""); try done;
    by destruct (disk w !! dirname path) as [[?|]|].
Qed.

Lemma can_save_spec (d : gmap string node) (path : string) :
  can_save d path = true
  ↔ d !! path ≠ Some Dir ∧ (dirname path = "" ∨ d !! dirname path = Some Dir).
Proof.
  unfold can_save. split.
  - intros H. split.
    + intros E. by rewrite E in H.
    + destruct (d !! path) as [[?|]|];
        destruct (String.eqb_spec (dirname path) ""); try done; auto;
        right; by destruct (d !! dirname path) as [[?|]|].
  - intros [Hnd [Hroot|Hdir]].
    + rewrite Hroot. by destruct (d !! path) as [[?|]|].
    + rewrite Hdir.
      by destruct (d !! path) as [[?|]|];
        destruct (String.eqb (dirname path) "").
Qed.

(** Writing a file where a save was possible keeps the other saves
    possible. *)
Lemma can_save_insert (d : gmap string node) (p q : string) (data : list byte) :
  can_save d p = true → can_save d q = true →
  can_save (<[p := File data]> d) q = true.
Proof.
  rewrite !can_save_spec. intros [Hp _] [Hq Hdir]. split.
  - destruct (decide (p = q)) as [->|Hpq].
    + by rewrite lookup_insert_eq.
    + by rewrite lookup_insert_ne.
  - destruct Hdir as [Hroot|Hdir]; [by left|]. right.
    rewrite lookup_insert_ne; [done|]. intros ->. by rewrite Hdir in Hp.
Qed.

Lemma set_files_id (st : SessionState) : set_files (files st ++ []) st = st.
Proof. destruct st. unfold set_files. simpl. by rewrite app_nil_r. Qed.

Lemma upload_one_run (session_id : string) (acc : list string)
    (item : Z * FileStorage) (w : World) (st : SessionState) :
  truthy (PyStr (filename item.2)) = true →
  sessions w !! session_id = Some st →
  can_save (disk w) (upload_path item) = true →
  upload_one session_id acc item w
  = ({| sessions :=
          <[session_id := set_files (files st ++ [upload_name item]) st]>
            (sessions w);
        disk := <[upload_path item := File (stream item.2)]> (disk w) |},
     Ok (acc ++ [upload_name item])).
Proof.
  destruct item as [epoch file]. intros T E Hsave.
  unfold upload_one. cbn [fst snd] in *. rewrite T.
  pose proof (save_run _ (stream file) _ Hsave) as Hs.
  unfold upload_path, upload_name in Hs. cbn [fst snd] in Hs.
  rewrite (bind_ok _ _ _ _ _ Hs).
  erewrite bind_ok; last by (apply (update_run _ _ _ st); exact E).
  reflexivity.
Qed.

Lemma upload_one_skip (session_id : string) (acc : list string)
    (item : Z * FileStorage) (w : World) :
  truthy (PyStr (filename item.2)) = false →
  upload_one session_id acc item w = (w, Ok acc).
Proof.
  destruct item as [epoch file]. intros T.
  unfold upload_one. cbn [fst snd] in *. by rewrite T.
Qed.

Lemma upload_loop_run (session_id : string) (uploads : list (Z * FileStorage))
    (acc : list string) (w : World) (st : SessionState) :
  sessions w !! session_id = Some st →
  Forall (λ item, can_save (disk w) (upload_path item) = true) (accepted uploads) →
  for_fold uploads (upload_one session_id) acc w
  = ({| sessions :=
          <[session_id :=
              set_files (files st ++ (upload_name <$> accepted uploads)) st]>
            (sessions w);
        disk := written (accepted uploads) (disk w) |},
     Ok (acc ++ (upload_name <$> accepted uploads))).
Proof.
  revert acc w st. induction uploads as [|item uploads IH];
    intros acc w st E Hsave.
  - simpl. rewrite set_files_id, (insert_id _ _ _ E), app_nil_r.
    by destruct w.
  - cbn [for_fold]. unfold accepted in *. cbn [List.filter] in *.
    destruct (truthy (PyStr (filename item.2))) eqn:T.
    + apply Forall_cons in Hsave as [Hhere Hrest].
      rewrite (bind_ok _ _ _ _ _ (upload_one_run _ acc _ _ _ T E Hhere)).
      rewrite (IH _ _ (set_files (files st ++ [upload_name item]) st)).
      * cbn [fmap list_fmap written foldl]. unfold set_files. simpl.
        rewrite insert_insert_eq, <- !app_assoc. done.
      * simpl. apply lookup_insert_eq.
      * simpl. eapply Forall_impl; [exact Hrest|].
        intros other Hother. by apply can_save_insert.
    + rewrite (bind_ok _ _ _ _ _ (upload_one_skip _ acc _ _ T)). by apply IH.
Qed.

Lemma upload_file_run (session_id : string) (uploads : list (Z * FileStorage))
    (w : World) :
  Forall (λ item, can_save (disk w) (upload_path item) = true) (accepted uploads) →
  upload_file session_id uploads w
  = ({| sessions :=
          <[session_id :=
              set_files (files (session_or_fresh w session_id)
                         ++ (upload_name <$> accepted uploads))
                (session_or_fresh w session_id)]> (sessions w);
        disk := written (accepted uploads) (disk w) |},
     Ok (jsonify [("success", JTrue);
                  ("files", json_names (upload_name <$> accepted uploads))])).
Proof.
  intros Hsave. unfold upload_file. rewrite create_if_absent_then.
  erewrite bind_ok; last first.
  { apply (upload_loop_run _ _ _ _ _ (ensure_lookup session_id w)).
    by rewrite ensure_disk. }
  by rewrite insert_ensure, ensure_disk.
Qed.

(** C9 as stated fails on two uploads of "a.wav" in the same second: both get the name "1714557540_a.wav", the response is the
    plain success response that lists this name twice, the session lists
    it twice, and the disk holds the bytes of the second upload only;
    nothing marks the collision. *)
Lemma same_second_upload_not_flagged :
  let first := {| filename := "a.wav"; stream := list_byte_of_string "Man" |} in
  let second := {| filename := "a.wav"; stream := list_byte_of_string "Ma" |} in
  let w := {| sessions := ∅; disk := {[ "uploads" := Dir ]} |} in
  let out := upload_file "s1" [(1714557540%Z, first); (1714557540%Z, second)] w in
  out.2 = Ok (jsonify [("success", JTrue);
                       ("files", JList [JStr "1714557540_a.wav";
                                        JStr "1714557540_a.wav"])])
  ∧ files <$> sessions out.1 !! "s1"
    = Some ["1714557540_a.wav"; "1714557540_a.wav"]
  ∧ disk out.1
    = {[ "uploads" := Dir;
         "uploads/1714557540_a.wav" := File (list_byte_of_string "Ma") ]}.
Proof. repeat split; vm_compute; reflexivity. Qed.

(** C9, amended: when every save can be done, the upload handler stores
    each file that has a name under the decimal epoch seconds, an
    underscore and the original name, in the order of the request: these
    names are the [files] of its success response and are appended to the
    files of the session. Two uploads of the same name in the same second
    get the same stored name, listed twice, and the bytes of the second
    replace those of the first; the response is the same success response
    and marks nothing. *)
Theorem upload_stores_epoch_names (session_id : string)
    (uploads : list (Z * FileStorage)) (w : World) :
  Forall (λ item, can_save (disk w) (upload_path item) = true) (accepted uploads) →
  ∃ w' names,
    names = (λ item, str_int item.1 +:+ "_" +:+ filename item.2) <$> accepted uploads
    ∧ upload_file session_id uploads w
      = (w', Ok (jsonify [("success", JTrue); ("files", json_names names)]))
    ∧ files <$> sessions w' !! session_id
      = Some (files (session_or_fresh w session_id) ++ names)
    ∧ disk w' = written (accepted uploads) (disk w)
    ∧ (∀ epoch file1 file2,
         uploads = [(epoch, file1); (epoch, file2)] →
         filename file1 = filename file2 →
         filename file1 ≠ "" →
         names = [stored_name epoch (filename file1);
                  stored_name epoch (filename file1)]
         ∧ disk w' !! path_join UPLOAD_FOLDER (stored_name epoch (filename file1))
           = Some (File (stream file2))).
Proof.
  intros Hsave. eexists _, _. split; [reflexivity|].
  split; [by apply upload_file_run|]. split; [|split].
  - simpl. by rewrite lookup_insert_eq.
  - done.
  - intros epoch file1 file2 -> Hsame Hname.
    assert (truthy (PyStr (filename file1)) = true) as T1.
    { simpl. by apply negb_true_iff, String.eqb_neq. }
    assert (truthy (PyStr (filename file2)) = true) as T2 by by rewrite <- Hsame.
    unfold accepted. cbn [List.filter snd]. rewrite T1, T2.
    cbn [fmap list_fmap written foldl fst snd]. unfold upload_path, upload_name.
    cbn [fst snd]. rewrite <- Hsame. split; [done|].
    simpl. by rewrite lookup_insert_eq.
Qed.

Lemma upload_stores_epoch_names_witness :
  ∃ w',
    upload_file "s1"
      [(1714557600%Z, {| filename := "c.ogg"; stream := list_byte_of_string "M" |});
       (1714557601%Z, {| filename := ""; stream := [] |})]
      sample_world
    = (w', Ok (jsonify [("success", JTrue);
                        ("files", JList [JStr "1714557600_c.ogg"])])).
Proof.
  destruct (upload_stores_epoch_names "s1"
    [(1714557600%Z, {| filename := "c.ogg"; stream := list_byte_of_string "M" |});
     (1714557601%Z, {| filename := ""; stream := [] |})]
    sample_world) as (w' & names & -> & H & _).
  - repeat constructor.
  - exists w'. exact H.
Defined.

(** ** Tickets over the life of a session *)

Lemma counter_of_insert (w w' : World) (id id' : string) (st : SessionState) :
  sessions w' = <[id' := st]> (sessions w) →
  ticket_counter st = counter_of w id' →
  counter_of w' id = counter_of w id.
Proof.
  intros Hs Hc. unfold counter_of in *. rewrite Hs.
  destruct (decide (id' = id)) as [->|Hne].
  - by rewrite lookup_insert_eq.
  - by rewrite lookup_insert_ne.
Qed.

Lemma counter_of_ensure (id id' : string) (w : World) :
  counter_of (ensure id' w) id = counter_of w id.
Proof.
  unfold ensure. destruct (sessions w !! id') eqn:E; [done|].
  apply (counter_of_insert w _ id id' fresh_session); [done|].
  unfold counter_of. by rewrite E.
Qed.

Lemma counter_of_session_or_fresh (w : World) (id : string) :
  ticket_counter (session_or_fresh w id) = counter_of w id.
Proof. unfold session_or_fresh, counter_of. by destruct (sessions w !! id). Qed.

Lemma update_counter (id id' : string) (f : SessionState → SessionState)
    (w : World) :
  (∀ st, ticket_counter (f st) = ticket_counter st) →
  counter_of (update id' f w).1 id = counter_of w id.
Proof.
  intros Hf. destruct (sessions w !! id') as [st|] eqn:E.
  - rewrite (update_run _ _ _ _ E).
    apply (counter_of_insert w _ id id' (f st)); [done|].
    rewrite Hf. unfold counter_of. by rewrite E.
  - unfold update, getitem. unfold_M. by rewrite E.
Qed.

Lemma upload_one_counter (id id' : string) (acc : list string)
    (item : Z * FileStorage) (w : World) :
  counter_of (upload_one id' acc item w).1 id = counter_of w id.
Proof.
  destruct item as [epoch file]. unfold upload_one.
  destruct (truthy (PyStr (filename file))); [|done].
  pose proof (save_sessions (path_join UPLOAD_FOLDER (stored_name epoch (filename file)))
                (stream file) w) as Hs.
  destruct (save (path_join UPLOAD_FOLDER (stored_name epoch (filename file)))
              (stream file) w) as [w1 [[]|e]] eqn:Esave; simpl in Hs.
  - rewrite (bind_ok _ _ _ _ _ Esave).
    assert (counter_of w1 id = counter_of w id) as <-
      by (unfold counter_of; by rewrite Hs).
    pose proof (update_counter id id'
      (λ st, set_files (files st ++ [stored_name epoch (filename file)]) st)
      w1 (λ _, eq_refl)) as Hu.
    destruct (update id' _ w1) as [w2 [[]|e]] eqn:Eu; simpl in Hu.
    + by rewrite (bind_ok _ _ _ _ _ Eu).
    + by rewrite (bind_raise _ _ _ _ _ Eu).
  - rewrite (bind_raise _ _ _ _ _ Esave). unfold counter_of. simpl. by rewrite Hs.
Qed.

Lemma upload_loop_counter (id id' : string) (uploads : list (Z * FileStorage))
    (acc : list string) (w : World) :
  counter_of (for_fold uploads (upload_one id') acc w).1 id = counter_of w id.
Proof.
  revert acc w. induction uploads as [|item uploads IH]; intros acc w; [done|].
  cbn [for_fold].
  pose proof (upload_one_counter id id' acc item w) as H1.
  destruct (upload_one id' acc item w) as [w1 [acc1|e]] eqn:E; simpl in H1.
  - rewrite (bind_ok _ _ _ _ _ E). by rewrite IH.
  - by rewrite (bind_raise _ _ _ _ _ E).
Qed.

Lemma upload_file_counter (id id' : string) (uploads : list (Z * FileStorage))
    (w : World) :
  counter_of (upload_file id' uploads w).1 id = counter_of w id.
Proof.
  unfold upload_file. rewrite create_if_absent_then.
  pose proof (upload_loop_counter id id' uploads [] (ensure id' w)) as H.
  rewrite counter_of_ensure in H.
  destruct (for_fold uploads (upload_one id') [] (ensure id' w))
    as [w1 [names|e]] eqn:E; simpl in H.
  - by rewrite (bind_ok _ _ _ _ _ E).
  - by rewrite (bind_raise _ _ _ _ _ E).
Qed.

Lemma chat_counter (id : string) (model : option GenerativeModel) (id' : string)
    (message is_voice_input : pyval) (now1 now2 : string) (w : World) :
  counter_of (chat model id' message is_voice_input now1 now2 w).1 id
  = counter_of w id.
Proof.
  rewrite chat_run, chat_try_run.
  assert (∀ st, ticket_counter st = counter_of w id' →
            counter_of (with_sessions (<[id' := st]> (sessions w)) w) id
            = counter_of w id) as Hins
    by (intros st Hst; by apply (counter_of_insert w _ id id' st)).
  destruct model as [generate_content|].
  - destruct (build_user_parts message _ w).2 as [user_parts|e].
    + destruct (generate_content (contents_of user_parts)); simpl;
        apply Hins; apply counter_of_session_or_fresh.
    + simpl. apply Hins, counter_of_session_or_fresh.
  - simpl. apply Hins, counter_of_session_or_fresh.
Qed.

(** Only the create-ticket handler of a session moves its counter. *)
Lemma handle_counter_other (id : string) (r : Request) (w : World) :
  is_ticket_for id r = false →
  counter_of (handle r w).1 id = counter_of w id.
Proof.
  destruct r as [id'|id' uploads|model id' message ivi now1 now2|id'
                |id' rating' comment' now|id'|id'|id']; intros H; simpl.
  - rewrite init_session_run. apply counter_of_ensure.
  - apply upload_file_counter.
  - apply chat_counter.
  - simpl in H. apply String.eqb_neq in H. rewrite create_ticket_run.
    unfold counter_of. simpl. by rewrite lookup_insert_ne.
  - rewrite submit_feedback_run. cbn [fst].
    eapply (counter_of_insert w _ id id'); [reflexivity|].
    apply counter_of_session_or_fresh.
  - by rewrite export_json_run.
  - by rewrite export_feedback_run.
  - destruct (sessions w !! id') as [st|] eqn:E.
    + rewrite (clear_chat_run _ _ _ E). cbn [fst].
      eapply (counter_of_insert w _ id id' (cleared st)); [reflexivity|].
      unfold counter_of. by rewrite E.
    + by rewrite (clear_chat_absent _ _ E).
Qed.

(** Whatever else the server handles in between, for this session or for
    another, the create-ticket requests of a session are answered with the
    consecutive numbers that follow its counter. *)
Lemma serve_tickets (requests : list Request) (session_id : string) (w : World) :
  tickets_for session_id (serve requests w).2
  = (λ n, Ok (ticket_response n))
    <$> seq (counter_of w session_id + 1)
          (length (tickets_for session_id (serve requests w).2))
  ∧ counter_of (serve requests w).1 session_id
    = counter_of w session_id
      + length (tickets_for session_id (serve requests w).2).
Proof.
  revert w. induction requests as [|r rest IH]; intros w.
  - simpl. split; [done|lia].
  - cbn [serve]. unfold tickets_for in *. cbn [List.filter fst snd].
    destruct (IH (handle r w).1) as [IH1 IH2].
    destruct (is_ticket_for session_id r) eqn:T.
    + destruct r; try discriminate. simpl in T.
      apply String.eqb_eq in T. subst session_id0.
      cbn [handle] in *. rewrite create_ticket_counter in IH1, IH2.
      cbn [fmap list_fmap length seq]. split.
      * rewrite IH1 at 1. rewrite create_ticket_run. cbn [snd].
        by replace (S (counter_of w session_id + 1))
          with (counter_of w session_id + 1 + 1) by lia.
      * rewrite IH2. simpl. lia.
    + rewrite (handle_counter_other _ _ _ T) in IH1, IH2. by split.
Qed.

(** C2: on a session whose counter is 0 (an unseen id or a session that
    has issued no ticket), [N >= 1] calls of the create-ticket handler in a
    row all return, their ticket numbers are "Q" followed by 1, 2, ..., N
    zero-padded to width 3, in this order and without a repeat, and the
    counter of the session is [N] afterwards. The same holds over the life
    of the session: whatever requests the server handles in between, the
    create-ticket requests of the session are answered with the tickets of
    1, 2, ... in order, and the counter is their number. *)
Theorem create_ticket_sequence (w : World) (session_id : string) (N : nat) :
  counter_of w session_id = 0 →
  (1 ≤ N)%nat →
  (∃ w' rs,
     call_n N (create_ticket session_id) w = (w', Ok rs)
     ∧ ticket_field <$> rs
       = (λ n, Some (JStr ("Q" +:+ zfill 3 (str_nat n)))) <$> seq 1 N
     ∧ NoDup (ticket_field <$> rs)
     ∧ Forall (λ r, status r = 200) rs
     ∧ counter_of w' session_id = N)
  ∧ (∀ requests,
       tickets_for session_id (serve requests w).2
       = (λ n, Ok (ticket_response n))
         <$> seq 1 (length (tickets_for session_id (serve requests w).2))
       ∧ counter_of (serve requests w).1 session_id
         = length (tickets_for session_id (serve requests w).2)).
Proof.
  intros H0 _. split.
  - destruct (call_n_create_ticket N session_id w) as (w' & rs & Hrun & Hrs & Hc).
    rewrite H0 in Hrs, Hc. simpl in Hrs, Hc.
    assert (ticket_field <$> rs
            = (λ n, Some (JStr (ticket_number_of n))) <$> seq 1 N) as Hfields.
    { rewrite Hrs, <- list_fmap_compose. apply list_fmap_ext.
      intros i n _. apply ticket_field_response. }
    exists w', rs. repeat split; try done.
    + rewrite Hfields. apply NoDup_fmap_2; [|apply NoDup_seq].
      intros n m H. apply ticket_number_of_inj. unfold JStr in H. congruence.
    + rewrite Hrs. apply Forall_fmap, Forall_forall. intros; reflexivity.
  - intros requests.
    destruct (serve_tickets requests session_id w) as [H1 H2].
    by rewrite H0 in H1, H2.
Qed.

Lemma create_ticket_sequence_witness :
  ∃ w' rs,
    call_n 3 (create_ticket "s1") empty_world = (w', Ok rs)
    ∧ ticket_field <$> rs = [Some (JStr "Q001"); Some (JStr "Q002"); Some (JStr "Q003")]
    ∧ counter_of w' "s1" = 3.
Proof.
  destruct (create_ticket_sequence empty_world "s1" 3)
    as [(w' & rs & H1 & H2 & _ & _ & H3) _].
  - reflexivity.
  - lia.
  - exists w', rs. split; [exact H1|]. split; [exact H2|exact H3].
Defined.

(** ** The audio suffixes *)

Lemma substring_all (s : string) : String.substring 0 (String.length s) s = s.
Proof. induction s as [|c s IH]; simpl; [done | by rewrite IH]. Qed.

Lemma string_length_app (a b : string) :
  String.length (a +:+ b) = String.length a + String.length b.
Proof.
  induction a as [|c a IH]; [done|].
  rewrite string_app_cons. simpl. by rewrite IH.
Qed.

Lemma substring_app_r (pre suf : string) :
  String.substring (String.length pre) (String.length suf) (pre +:+ suf) = suf.
Proof.
  induction pre as [|c pre IH]; [apply substring_all|].
  rewrite string_app_cons. simpl. exact IH.
Qed.

Lemma substring_split (s : string) (i : nat) :
  (i ≤ String.length s)%nat →
  String.substring 0 i s +:+ String.substring i (String.length s - i) s = s.
Proof.
  revert i. induction s as [|c s IH]; intros i Hi.
  - simpl in Hi. by replace i with 0 by lia.
  - destruct i as [|i].
    + simpl. by rewrite substring_all.
    + simpl in *. rewrite string_app_cons, IH; [done|lia].
Qed.

(** [endswith] is the suffix test. *)
Lemma endswith_spec (s suffix : string) :
  endswith s suffix = true ↔ ∃ pre, s = pre +:+ suffix.
Proof.
  unfold endswith. rewrite andb_true_iff, Nat.leb_le, String.eqb_eq. split.
  - intros [Hle Hsub].
    exists (String.substring 0 (String.length s - String.length suffix) s).
    rewrite <- Hsub at 2.
    rewrite <- (substring_split s (String.length s - String.length suffix)) at 1
      by lia.
    do 2 f_equal. lia.
  - intros [pre ->]. rewrite string_length_app. split; [lia|].
    replace (String.length pre + String.length suffix - String.length suffix)
      with (String.length pre) by lia.
    apply substring_app_r.
Qed.

(** The test of the code in the words of the specification: the name,
    in lower case, ends with a dot and one of the six extensions. *)
Lemma is_audio_spec (name : string) :
  is_audio name = true
  ↔ ∃ stem ext,
      ext ∈ ["wav"; "mp3"; "aiff"; "aac"; "ogg"; "flac"]
      ∧ lower name = stem +:+ "." +:+ ext.
Proof.
  unfold is_audio, endswith_any. rewrite existsb_exists. split.
  - intros (suffix & Hin & Hend). apply endswith_spec in Hend as [stem Hstem].
    exists stem. unfold audio_suffixes in Hin. simpl in Hin.
    destruct Hin as [<-|[<-|[<-|[<-|[<-|[<-|[]]]]]]];
      [exists "wav"|exists "mp3"|exists "aiff"|exists "aac"|exists "ogg"
      |exists "flac"]; (split; [set_solver|exact Hstem]).
  - intros (stem & ext & Hin & Hname).
    exists ("." +:+ ext). split.
    + unfold audio_suffixes.
      repeat (apply elem_of_cons in Hin as [->|Hin]; [simpl; tauto|]).
      by apply elem_of_nil in Hin.
    + apply endswith_spec. by exists stem.
Qed.

(** ** Worked examples *)

Example ticket_numbers_padded :
  ticket_number_of 7 = "Q007" ∧ ticket_number_of 42 = "Q042"
  ∧ ticket_number_of 999 = "Q999" ∧ ticket_number_of 1000 = "Q1000".
Proof. repeat split; reflexivity. Qed.

Example audio_suffix_cases :
  is_audio "1714557540_SONG.WAV" = true
  ∧ is_audio "1714557540_take.flac" = true
  ∧ is_audio "1714557540_wav" = false
  ∧ is_audio "1714557540_a.wav.txt" = false
  ∧ is_audio "1714557540_doc.pdf" = false.
Proof. repeat split; reflexivity. Qed.

Example b64encode_padding :
  b64encode (list_byte_of_string "Man") = "TWFu"
  ∧ b64encode (list_byte_of_string "Ma") = "TWE="
  ∧ b64encode (list_byte_of_string "M") = "TQ=="
  ∧ b64encode [] = "".
Proof. repeat split; reflexivity. Qed.

(** A file that is not audio is skipped: the parts are the text part alone,
    or nothing when the message is empty. *)
Example pdf_is_skipped :
  let w := {| sessions := ∅;
              disk := {[ "uploads" := Dir;
                         "uploads/doc.pdf" := File (list_byte_of_string "%PDF") ]} |} in
  build_user_parts (PyStr "hi") ["doc.pdf"] w = (w, Ok [text_part (PyStr "hi")])
  ∧ build_user_parts (PyStr "") ["doc.pdf"] w = (w, Ok [])
  ∧ build_user_parts PyNone ["doc.pdf"] w = (w, Ok []).
Proof. repeat split; reflexivity. Qed.

(** A folder stored under an audio name makes the read raise, and the chat
    handler answers with the apology; the user message stays stored. *)
Example folder_under_audio_name :
  let w := {| sessions := {[ "s1" := set_files ["x.wav"] fresh_session ]};
              disk := {[ "uploads" := Dir; "uploads/x.wav" := Dir ]} |} in
  let out := chat (Some (λ _, Ok "pong")) "s1" (PyStr "hi") (PyBool false)
               "2024-05-01T10:01:00" "2024-05-01T10:01:02" w in
  out.2 = Ok (error_response (IsADirectoryError "uploads/x.wav"))
  ∧ messages <$> sessions out.1 !! "s1"
    = Some [user_message (PyStr "hi") "2024-05-01T10:01:00"].
Proof. split; reflexivity. Qed.

(** A whole exchange: upload, chat, ticket, feedback, clear, exports. *)
Example one_session :
  let w0 := {| sessions := ∅; disk := {[ "uploads" := Dir ]} |} in
  let log :=
    (serve
       [Upload "s1" [(1714557540%Z,
                      {| filename := "a.wav"; stream := list_byte_of_string "Man" |})];
        Chat (Some (λ _, Ok "pong")) "s1" (PyStr "hi") (PyBool true) "t1" "t2";
        CreateTicket "s1";
        Feedback "s1" (PyInt 5) (PyStr "good") "t3";
        Clear "s1";
        CreateTicket "s1";
        ExportJson "s1";
        ExportFeedback "s1";
        ExportJson "s2"] w0).2 in
  snd <$> log
  = [Ok (jsonify [("success", JTrue); ("files", JList [JStr "1714557540_a.wav"])]);
     Ok (chat_response "pong" (PyBool true));
     Ok (ticket_response 1);
     Ok (jsonify [("success", JTrue)]);
     Ok (jsonify [("success", JTrue)]);
     Ok (ticket_response 2);
     Ok (jsonify [("session_id", JStr "s1"); ("messages", JList []);
                  ("files", JList []); ("ticket_counter", JVal (PyInt 2))]);
     Ok (jsonify [("success", JTrue);
                  ("csv_data",
                   JStr ("Timestamp,Rating,Comment" +:+ nl
                         +:+ "t3,5," +:+ dquote +:+ "good" +:+ dquote +:+ nl));
                  ("filename", JStr "feedback_s1.csv")]);
     Ok (jsonify [("error", JStr "Session not found")])].
Proof. vm_compute. reflexivity. Qed.

(** * Further properties of the handlers *)

(** ** Sessions do not interfere *)

Lemma ensure_lookup_ne (id id' : string) (w : World) :
  id ≠ id' → sessions (ensure id' w) !! id = sessions w !! id.
Proof.
  intros Hne. unfold ensure. destruct (sessions w !! id'); [done|].
  simpl. by rewrite lookup_insert_ne.
Qed.

Lemma update_lookup_ne (id id' : string) (f : SessionState → SessionState)
    (w : World) :
  id ≠ id' → sessions (update id' f w).1 !! id = sessions w !! id.
Proof.
  intros Hne. destruct (sessions w !! id') as [st|] eqn:E.
  - rewrite (update_run _ _ _ _ E). simpl. by rewrite lookup_insert_ne.
  - unfold update, getitem. unfold_M. by rewrite E.
Qed.

Lemma upload_one_lookup_ne (id id' : string) (acc : list string)
    (item : Z * FileStorage) (w : World) :
  id ≠ id' → sessions (upload_one id' acc item w).1 !! id = sessions w !! id.
Proof.
  intros Hne. destruct item as [epoch file]. unfold upload_one.
  destruct (truthy (PyStr (filename file))); [|done].
  pose proof (save_sessions (path_join UPLOAD_FOLDER (stored_name epoch (filename file)))
                (stream file) w) as Hs.
  destruct (save (path_join UPLOAD_FOLDER (stored_name epoch (filename file)))
              (stream file) w) as [w1 [[]|e]] eqn:Esave; simpl in Hs.
  - rewrite (bind_ok _ _ _ _ _ Esave). rewrite <- Hs.
    pose proof (update_lookup_ne id id'
      (λ st, set_files (files st ++ [stored_name epoch (filename file)]) st)
      w1 Hne) as Hu.
    destruct (update id' _ w1) as [w2 [[]|e]] eqn:Eu; simpl in Hu.
    + by rewrite (bind_ok _ _ _ _ _ Eu).
    + by rewrite (bind_raise _ _ _ _ _ Eu).
  - rewrite (bind_raise _ _ _ _ _ Esave). simpl. by rewrite Hs.
Qed.

Lemma upload_loop_lookup_ne (id id' : string) (uploads : list (Z * FileStorage))
    (acc : list string) (w : World) :
  id ≠ id' →
  sessions (for_fold uploads (upload_one id') acc w).1 !! id = sessions w !! id.
Proof.
  intros Hne. revert acc w.
  induction uploads as [|item uploads IH]; intros acc w; [done|].
  cbn [for_fold].
  pose proof (upload_one_lookup_ne id id' acc item w Hne) as H1.
  destruct (upload_one id' acc item w) as [w1 [acc1|e]] eqn:E; simpl in H1.
  - rewrite (bind_ok _ _ _ _ _ E). by rewrite IH.
  - by rewrite (bind_raise _ _ _ _ _ E).
Qed.

Lemma upload_file_lookup_ne (id id' : string) (uploads : list (Z * FileStorage))
    (w : World) :
  id ≠ id' → sessions (upload_file id' uploads w).1 !! id = sessions w !! id.
Proof.
  intros Hne. unfold upload_file. rewrite create_if_absent_then.
  pose proof (upload_loop_lookup_ne id id' uploads [] (ensure id' w) Hne) as H.
  rewrite ensure_lookup_ne in H by done.
  destruct (for_fold uploads (upload_one id') [] (ensure id' w))
    as [w1 [names|e]] eqn:E; simpl in H.
  - by rewrite (bind_ok _ _ _ _ _ E).
  - by rewrite (bind_raise _ _ _ _ _ E).
Qed.

Lemma chat_lookup_ne (id : string) (model : option GenerativeModel) (id' : string)
    (message is_voice_input : pyval) (now1 now2 : string) (w : World) :
  id ≠ id' →
  sessions (chat model id' message is_voice_input now1 now2 w).1 !! id
  = sessions w !! id.
Proof.
  intros Hne. rewrite chat_run, chat_try_run.
  destruct model as [generate_content|].
  - destruct (build_user_parts message _ w).2 as [user_parts|e].
    + destruct (generate_content (contents_of user_parts)); simpl;
        by rewrite lookup_insert_ne.
    + simpl. by rewrite lookup_insert_ne.
  - simpl. by rewrite lookup_insert_ne.
Qed.

(** A request leaves the sessions of the other ids as they are. *)
Lemma handle_lookup_ne (id : string) (r : Request) (w : World) :
  id ≠ session_of r → sessions (handle r w).1 !! id = sessions w !! id.
Proof.
  destruct r as [id'|id' uploads|model id' message ivi now1 now2|id'
                |id' rating' comment' now|id'|id'|id']; simpl; intros Hne.
  - rewrite init_session_run. by apply ensure_lookup_ne.
  - by apply upload_file_lookup_ne.
  - by apply chat_lookup_ne.
  - rewrite create_ticket_run. simpl. by rewrite lookup_insert_ne.
  - rewrite submit_feedback_run. simpl. by rewrite lookup_insert_ne.
  - by rewrite export_json_run.
  - by rewrite export_feedback_run.
  - destruct (sessions w !! id') as [st|] eqn:E.
    + rewrite (clear_chat_run _ _ _ E). simpl. by rewrite lookup_insert_ne.
    + by rewrite (clear_chat_absent _ _ E).
Qed.

(** X1: whatever requests the server handles for other ids, also those
    that raise, the session stored under an id stays exactly as it was,
    and an id that is not in the store stays out of it. *)
Theorem other_sessions_untouched (requests : list Request) (id : string)
    (w : World) :
  Forall (λ r, session_of r ≠ id) requests →
  sessions (serve requests w).1 !! id = sessions w !! id.
Proof.
  revert w. induction requests as [|r rest IH]; intros w H; [done|].
  apply Forall_cons in H as [Hr Hrest]. cbn [serve fst].
  rewrite (IH _ Hrest). by apply handle_lookup_ne.
Qed.

(** ** What only grows *)

Lemma files_extended_refl (st : SessionState) : files_extended st st.
Proof. by repeat split. Qed.

Lemma files_extended_trans (st1 st2 st3 : SessionState) :
  files_extended st1 st2 → files_extended st2 st3 → files_extended st1 st3.
Proof.
  intros (Hm & Hc & Hf & Hp) (Hm' & Hc' & Hf' & Hp').
  repeat split; [congruence..|]. by etrans.
Qed.

Lemma upload_one_session (id : string) (acc : list string)
    (item : Z * FileStorage) (w : World) (st : SessionState) :
  sessions w !! id = Some st →
  ∃ st', sessions (upload_one id acc item w).1 !! id = Some st'
         ∧ files_extended st st'.
Proof.
  intros E. destruct item as [epoch file]. unfold upload_one.
  destruct (truthy (PyStr (filename file)));
    [|exists st; split; [done | apply files_extended_refl]].
  pose proof (save_sessions (path_join UPLOAD_FOLDER (stored_name epoch (filename file)))
                (stream file) w) as Hs.
  destruct (save (path_join UPLOAD_FOLDER (stored_name epoch (filename file)))
              (stream file) w) as [w1 [[]|e]] eqn:Esave; simpl in Hs.
  - rewrite (bind_ok _ _ _ _ _ Esave).
    assert (sessions w1 !! id = Some st) as E1 by by rewrite Hs.
    rewrite (bind_ok _ _ _ _ _ (update_run _ _ _ _ E1)).
    eexists. split; [simpl; apply lookup_insert_eq|].
    repeat split. simpl. by apply prefix_app_r.
  - rewrite (bind_raise _ _ _ _ _ Esave). exists st.
    split; [simpl; by rewrite Hs | apply files_extended_refl].
Qed.

Lemma upload_loop_session (id : string) (uploads : list (Z * FileStorage))
    (acc : list string) (w : World) (st : SessionState) :
  sessions w !! id = Some st →
  ∃ st', sessions (for_fold uploads (upload_one id) acc w).1 !! id = Some st'
         ∧ files_extended st st'.
Proof.
  revert acc w st. induction uploads as [|item uploads IH]; intros acc w st E.
  - exists st. split; [done | apply files_extended_refl].
  - cbn [for_fold].
    destruct (upload_one_session id acc item w st E) as (st1 & E1 & H1).
    destruct (upload_one id acc item w) as [w1 [acc1|e]] eqn:Eo; simpl in E1.
    + rewrite (bind_ok _ _ _ _ _ Eo).
      destruct (IH acc1 w1 st1 E1) as (st2 & E2 & H2).
      exists st2. split; [done | by eapply files_extended_trans].
    + rewrite (bind_raise _ _ _ _ _ Eo). by exists st1.
Qed.

Lemma upload_file_session (id : string) (uploads : list (Z * FileStorage))
    (w : World) (st : SessionState) :
  sessions w !! id = Some st →
  ∃ st', sessions (upload_file id uploads w).1 !! id = Some st'
         ∧ files_extended st st'.
Proof.
  intros E. unfold upload_file. rewrite create_if_absent_then.
  rewrite (ensure_present _ _ _ E).
  destruct (upload_loop_session id uploads [] w st E) as (st' & E' & H').
  destruct (for_fold uploads (upload_one id) [] w) as [w1 [names|e]] eqn:El;
    simpl in E'.
  - rewrite (bind_ok _ _ _ _ _ El). by exists st'.
  - rewrite (bind_raise _ _ _ _ _ El). by exists st'.
Qed.

Lemma session_or_fresh_present (w : World) (id : string) (st : SessionState) :
  sessions w !! id = Some st → session_or_fresh w id = st.
Proof. intros E. unfold session_or_fresh. by rewrite E. Qed.

(** The feedback of a stored session is never shortened and its counter
    never goes down, whatever the request. *)
Lemma handle_session_grows (id : string) (r : Request) (w : World)
    (st : SessionState) :
  sessions w !! id = Some st →
  ∃ st', sessions (handle r w).1 !! id = Some st'
         ∧ feedback st `prefix_of` feedback st'
         ∧ (ticket_counter st ≤ ticket_counter st')%nat.
Proof.
  intros E. destruct (decide (id = session_of r)) as [->|Hne];
    [|exists st; by rewrite (handle_lookup_ne _ _ _ Hne)].
  pose proof (session_or_fresh_present _ _ _ E) as Hst.
  destruct r as [id'|id' uploads|model id' message ivi now1 now2|id'
                |id' rating' comment' now|id'|id'|id']; simpl in *.
  - rewrite init_session_run, (ensure_present _ _ _ E). by exists st.
  - destruct (upload_file_session id' uploads w st E)
      as (st' & E' & _ & Hc & Hf & _).
    exists st'. by rewrite E', Hc, Hf.
  - rewrite chat_run, chat_try_run.
    destruct model as [generate_content|].
    + destruct (build_user_parts message _ w).2 as [user_parts|e].
      * destruct (generate_content (contents_of user_parts)); simpl;
          rewrite lookup_insert_eq; eexists; (split; [done|]);
          unfold with_user_message; rewrite Hst; by simpl.
      * simpl. rewrite lookup_insert_eq. eexists. split; [done|].
        unfold with_user_message. rewrite Hst. by simpl.
    + simpl. rewrite lookup_insert_eq. eexists. split; [done|].
      unfold with_user_message. rewrite Hst. by simpl.
  - rewrite create_ticket_run. simpl. rewrite lookup_insert_eq.
    eexists. split; [done|]. rewrite Hst. simpl. split; [done|].
    unfold counter_of. rewrite E. simpl. lia.
  - rewrite submit_feedback_run. simpl. rewrite lookup_insert_eq.
    eexists. split; [done|]. rewrite Hst. simpl. split; [|done].
    by apply prefix_app_r.
  - rewrite export_json_run. by exists st.
  - rewrite export_feedback_run. by exists st.
  - rewrite (clear_chat_run _ _ _ E). simpl. rewrite lookup_insert_eq.
    by eexists.
Qed.

(** X2: over any sequence of requests, a session that is in the store
    stays in it (no handler removes a session, clear included), its
    feedback list only gets longer (what was recorded stays, in order, at
    the front) and its ticket counter never goes down. *)
Theorem session_persists_and_grows (requests : list Request) (id : string)
    (w : World) (st : SessionState) :
  sessions w !! id = Some st →
  ∃ st', sessions (serve requests w).1 !! id = Some st'
         ∧ feedback st `prefix_of` feedback st'
         ∧ (ticket_counter st ≤ ticket_counter st')%nat.
Proof.
  revert w st. induction requests as [|r rest IH]; intros w st E.
  - by exists st.
  - cbn [serve fst].
    destruct (handle_session_grows id r w st E) as (st1 & E1 & Hf1 & Hc1).
    destruct (IH _ _ E1) as (st2 & E2 & Hf2 & Hc2).
    exists st2. split; [done|]. split; [by etrans | lia].
Qed.

(** X3: the upload handler only appends to the files of its session, also
    when a save raises in the middle of the request: afterwards the
    session is stored, its messages, ticket counter and feedback are those
    it had (those of a fresh session for an unseen id), and its former
    files are the front of its files. *)
Theorem upload_only_appends_files (id : string) (uploads : list (Z * FileStorage))
    (w : World) :
  ∃ st',
    sessions (upload_file id uploads w).1 !! id = Some st'
    ∧ messages st' = messages (session_or_fresh w id)
    ∧ ticket_counter st' = ticket_counter (session_or_fresh w id)
    ∧ feedback st' = feedback (session_or_fresh w id)
    ∧ files (session_or_fresh w id) `prefix_of` files st'.
Proof.
  pose proof (creating_handler_ensure (Upload id uploads) w eq_refl) as H.
  simpl in H. rewrite H.
  destruct (upload_file_session id uploads _ _ (ensure_lookup id w))
    as (st' & E' & Hm & Hc & Hf & Hp).
  by exists st'.
Qed.

(** ** The disk *)

(** Only the upload and the clear handlers write to the disk. *)
Lemma handle_disk (r : Request) (w : World) :
  touches_disk r = false → disk (handle r w).1 = disk w.
Proof.
  destruct r as [id'|id' uploads|model id' message ivi now1 now2|id'
                |id' rating' comment' now|id'|id'|id']; simpl; intros H;
    try discriminate.
  - rewrite init_session_run. apply ensure_disk.
  - rewrite chat_run, chat_try_run.
    destruct model as [generate_content|]; [|done].
    destruct (build_user_parts message _ w).2 as [user_parts|e]; [|done].
    by destruct (generate_content (contents_of user_parts)).
  - by rewrite create_ticket_run.
  - by rewrite submit_feedback_run.
  - by rewrite export_json_run.
  - by rewrite export_feedback_run.
Qed.

(** X4: the disk is written by the upload and the clear handlers only:
    over any sequence of other requests (init_session, chat, create-ticket,
    feedback and the two exports), whatever the model answers, the disk
    stays as it was; in particular the chat handler reads the audio files
    without ever changing or removing them. *)
Theorem disk_kept_without_upload_or_clear (requests : list Request) (w : World) :
  Forall (λ r, touches_disk r = false) requests →
  disk (serve requests w).1 = disk w.
Proof.
  revert w. induction requests as [|r rest IH]; intros w H; [done|].
  apply Forall_cons in H as [Hr Hrest]. cbn [serve fst].
  rewrite (IH _ Hrest). by apply handle_disk.
Qed.

Lemma startswith_slash (c : ascii) (s : string) :
  Ascii.eqb c "/" = false → startswith (String c s) "/" = false.
Proof.
  intros H. unfold startswith.
  change (String.prefix "/" (String c s))
    with (if ascii_dec "/" c then String.prefix "" s else false).
  destruct (ascii_dec "/" c) as [<-|]; [|done].
  by rewrite Ascii.eqb_refl in H.
Qed.






(** X6: clearing twice is clearing once: on an existing session a second
    clear answers with success again and changes neither the sessions nor
    the disk. *)
Theorem clear_chat_twice (w : World) (id : string) (st : SessionState) :
  sessions w !! id = Some st →
  clear_chat id (clear_chat id w).1
  = ((clear_chat id w).1, Ok (jsonify [("success", JTrue)])).
Proof.
  intros E. rewrite (clear_chat_run _ _ _ E). cbn [fst].
  erewrite clear_chat_run; last by (simpl; apply lookup_insert_eq).
  simpl. by rewrite insert_insert_eq.
Qed.

(** X7: a snapshot taken right after a clear of an existing session shows
    no message and no file, and the ticket counter the session had. *)
Theorem clear_then_snapshot (w : World) (id : string) (st : SessionState) :
  sessions w !! id = Some st →
  (export_json id (clear_chat id w).1).2
  = Ok (jsonify [("session_id", JStr id);
                 ("messages", JList []);
                 ("files", JList []);
                 ("ticket_counter", JVal (PyInt (Z.of_nat (ticket_counter st))))]).
Proof.
  intros E. rewrite (clear_chat_run _ _ _ E), export_json_run. simpl.
  by rewrite lookup_insert_eq.
Qed.

(** ** Initialisation, feedback and chat *)

(** X8: on an existing session init_session changes nothing and reports
    the files and the ticket counter of the session: it never resets a
    session, however often it is called. *)
Theorem init_session_existing (w : World) (id : string) (st : SessionState) :
  sessions w !! id = Some st →
  init_session id w
  = (w, Ok (jsonify [("success", JTrue);
                     ("files", JList (JStr <$> files st));
                     ("ticket_counter",
                      JVal (PyInt (Z.of_nat (ticket_counter st))))])).
Proof.
  intros E. rewrite init_session_run, (ensure_present _ _ _ E).
  by rewrite (session_or_fresh_present _ _ _ E).
Qed.




(** X10: when the model answers, the chat handler stores the user message
    and then the answer, in this order and with the two readings of the
    clock, changes nothing else in the session nor on the disk, and
    returns the answer with the [is_voice_input] flag of the request. *)
Theorem chat_success (generate_content : GenerativeModel) (id : string)
    (message is_voice_input : pyval) (now1 now2 : string) (w : World)
    (user_parts : list json) (text : string) :
  (build_user_parts message (files (session_or_fresh w id)) w).2 = Ok user_parts →
  generate_content [JObj [("role", JStr "user"); ("parts", JList user_parts)]]
  = Ok text →
  ∃ w',
    chat (Some generate_content) id message is_voice_input now1 now2 w
    = (w', Ok (jsonify [("success", JTrue);
                        ("response", JStr text);
                        ("is_voice_input", JVal is_voice_input);
                        ("video", JNone);
                        ("video_name", JNone);
                        ("session_ended", JFalse)]))
    ∧ sessions w' !! id
      = Some {| messages :=
                  messages (session_or_fresh w id)
                  ++ [{| role := user; content := message; timestamp := now1 |};
                      {| role := assistant; content := PyStr text;
                         timestamp := now2 |}];
                files := files (session_or_fresh w id);
                ticket_counter := ticket_counter (session_or_fresh w id);
                feedback := feedback (session_or_fresh w id) |}
    ∧ disk w' = disk w.
Proof.
  intros B G. eexists. rewrite chat_run, chat_try_run, B.
  unfold contents_of. rewrite G.
  split; [reflexivity|]. split; [|done].
  simpl. rewrite lookup_insert_eq. unfold set_messages. simpl.
  by rewrite <- app_assoc.
Qed.

(** X11: when the model could not be loaded, [load_model] gives [None]
    and every chat is answered, with status 200, by the "Model not
    available" error and its apology; the user message is stored all the
    same, and nothing else changes. *)
Theorem chat_without_model (e : exn) (id : string)
    (message is_voice_input : pyval) (now1 now2 : string) (w : World) :
  chat (load_model (Raise e)) id message is_voice_input now1 now2 w
  = (with_sessions
       (<[id := set_messages
                  (messages (session_or_fresh w id)
                   ++ [{| role := user; content := message; timestamp := now1 |}])
                  (session_or_fresh w id)]> (sessions w)) w,
     Ok {| status := 200;
           body := JObj
             [("error", JStr "Model not available");
              ("response",
               JStr "I apologize, but the AI model is currently unavailable.")] |}).
Proof. by rewrite chat_run, chat_try_run. Qed.

(** X12: a message that is empty or absent gives no text part: when no
    audio name points at a folder, the parts are the audio parts alone,
    the last file first, and the empty list when no file qualifies. *)
Theorem user_parts_without_text (w : World) (message : pyval)
    (names : list string) :
  truthy message = false →
  (∀ name, name ∈ names → is_audio name = true →
     disk w !! path_join UPLOAD_FOLDER name ≠ Some Dir) →
  build_user_parts message names w
  = (w, Ok (reverse (audio_parts (disk w) names))).
Proof.
  intros Ht Hok. unfold build_user_parts. rewrite Ht.
  destruct (add_audio_loop_run names [] None w Hok) as [mt H].
  rewrite (bind_ok _ _ _ _ _ H). simpl. by rewrite app_nil_r.
Qed.

Lemma add_audio_loop_raise (names : list string)
    (locals : list json * option string) (w w' : World) (e : exn) :
  for_fold names add_audio locals w = (w', Raise e) →
  ∃ name,
    name ∈ names ∧ is_audio name = true
    ∧ disk w !! path_join UPLOAD_FOLDER name = Some Dir
    ∧ e = IsADirectoryError (path_join UPLOAD_FOLDER name).
Proof.
  revert locals. induction names as [|name names IH]; intros locals H;
    [discriminate|].
  cbn [for_fold] in H.
  assert (∀ locals1, add_audio locals name w = (w, Ok locals1) →
            ∃ n, n ∈ name :: names ∧ is_audio n = true
                 ∧ disk w !! path_join UPLOAD_FOLDER n = Some Dir
                 ∧ e = IsADirectoryError (path_join UPLOAD_FOLDER n)) as Hnext.
  { intros locals1 Hstep. rewrite (bind_ok _ _ _ _ _ Hstep) in H.
    destruct (IH _ H) as (n & Hin & Hn). exists n. split; [by right|done]. }
  destruct (is_audio name) eqn:Ha;
    [|by apply (Hnext locals), add_audio_skip; left].
  destruct (disk w !! path_join UPLOAD_FOLDER name) as [[data|]|] eqn:E.
  - destruct locals as [user_parts mime_type].
    destruct (add_audio_file user_parts mime_type name data w Ha E)
      as (part & mt & _ & Hrun).
    by apply (Hnext _ Hrun).
  - rewrite (bind_raise _ _ _ _ _ (add_audio_dir locals name w Ha E)) in H.
    exists name. split; [by left|]. split; [done|]. split; [done|]. congruence.
  - by apply (Hnext locals), add_audio_skip; right.
Qed.

(** X13: the assembly of the parts raises only what the read of a file
    raises: when it raises, some name of the list has an audio suffix, is
    on the disk, and [open(...).read()] on its path raises this very
    exception. In particular the variable [mime_type] is never read before
    it is assigned: every suffix that passes the allow-list test has its
    branch in the chain. *)
Theorem build_user_parts_raises_only_from_read (message : pyval)
    (names : list string) (w : World) :
  (∀ e,
     (build_user_parts message names w).2 = Raise e →
     ∃ name,
       name ∈ names ∧ is_audio name = true
       ∧ is_Some (disk w !! path_join UPLOAD_FOLDER name)
       ∧ (read_bytes (path_join UPLOAD_FOLDER name) w).2 = Raise e)
  ∧ (build_user_parts message names w).2 ≠ Raise (UnboundLocalError "mime_type").
Proof.
  assert (∀ e,
            (build_user_parts message names w).2 = Raise e →
            ∃ name,
              name ∈ names ∧ is_audio name = true
              ∧ disk w !! path_join UPLOAD_FOLDER name = Some Dir
              ∧ e = IsADirectoryError (path_join UPLOAD_FOLDER name)) as H.
  { intros e. unfold build_user_parts, mbind, M_bind.
    destruct (for_fold names add_audio _ w) as [w' [locals|e']] eqn:E;
      [discriminate|].
    simpl. intros [= ->]. by eapply add_audio_loop_raise. }
  split.
  - intros e He. destruct (H e He) as (name & Hin & Ha & Hdir & ->).
    exists name. split; [done|]. split; [done|]. split; [by eexists|].
    unfold read_bytes. by rewrite Hdir.
  - intros He. by destruct (H _ He) as (name & _ & _ & _ & ?).
Qed.

(** ** Stored names and paths *)

Lemma slash_free_app (a b : string) :
  slash_free (a +:+ b) = slash_free a && slash_free b.
Proof.
  unfold slash_free. induction a as [|c a IH]; [done|].
  rewrite string_app_cons. simpl. by rewrite IH, andb_assoc.
Qed.

Lemma string_of_uint_slash_free (d : Decimal.uint) :
  slash_free (NilEmpty.string_of_uint d) = true.
Proof. unfold slash_free. induction d; simpl; auto. Qed.

Lemma str_int_slash_free (z : Z) : slash_free (str_int z) = true.
Proof.
  unfold str_int. destruct (Z.to_int z) as [d|d]; simpl.
  - apply string_of_uint_slash_free.
  - apply (string_of_uint_slash_free d).
Qed.

Lemma stored_name_slash_free (epoch : Z) (original : string) :
  slash_free original = true → slash_free (stored_name epoch original) = true.
Proof.
  intros H. unfold stored_name.
  by rewrite !slash_free_app, str_int_slash_free, H.
Qed.

Lemma stored_name_relative (epoch : Z) (original : string) :
  startswith (stored_name epoch original) "/" = false.
Proof.
  unfold stored_name. pose proof (str_int_slash_free epoch) as H.
  destruct (str_int epoch) as [|c s]; [done|].
  rewrite string_app_cons. apply startswith_slash.
  unfold slash_free in H. simpl in H. apply andb_true_iff in H as [H _].
  by apply negb_true_iff in H.
Qed.

Lemma upload_path_under_folder_eq (epoch : Z) (original : string) :
  path_join UPLOAD_FOLDER (stored_name epoch original)
  = "uploads/" +:+ stored_name epoch original.
Proof. unfold path_join. by rewrite stored_name_relative. Qed.

(** X14: whatever name the client sends, a slash at its front included,
    the path a file is saved under is the upload folder, a slash and the
    stored name: the epoch prefix keeps [os.path.join] from ever taking
    the name as an absolute path. *)
Theorem upload_path_under_folder (epoch : Z) (original : string) :
  path_join UPLOAD_FOLDER (stored_name epoch original)
  = "uploads/" +:+ str_int epoch +:+ "_" +:+ original.
Proof.
  unfold path_join. by rewrite stored_name_relative.
Qed.

Lemma upto_last_slash_app (l t : list ascii) :
  (∀ c, c ∈ l → Ascii.eqb c "/" = false) →
  upto_last_slash (l ++ "/"%char :: t) = "/"%char :: t.
Proof.
  induction l as [|c l IH]; intros H; [done|].
  simpl. rewrite (H c) by by left. apply IH. intros c' Hc'. apply H. by right.
Qed.

Lemma slash_free_elem (s : string) (c : ascii) :
  slash_free s = true → c ∈ list_ascii_of_string s → Ascii.eqb c "/" = false.
Proof.
  unfold slash_free. rewrite forallb_forall. intros H Hc.
  apply list_elem_of_In, H in Hc. by apply negb_true_iff in Hc.
Qed.

(** The folder of a path made of the upload folder and a name without a
    slash is the upload folder. *)
Lemma dirname_upload (name : string) :
  slash_free name = true → dirname ("uploads/" +:+ name) = "uploads".
Proof.
  intros H. unfold dirname.
  change (list_ascii_of_string ("uploads/" +:+ name))
    with ("u"%char :: "p"%char :: "l"%char :: "o"%char :: "a"%char :: "d"%char
          :: "s"%char :: "/"%char :: list_ascii_of_string name).
  rewrite !reverse_cons, <- !app_assoc. simpl.
  rewrite upto_last_slash_app; [reflexivity|].
  intros c Hc. rewrite elem_of_reverse in Hc. exact (slash_free_elem name c H Hc).
Qed.

Lemma can_save_upload (d : gmap string node) (item : Z * FileStorage) :
  d !! "uploads" = Some Dir →
  slash_free (filename item.2) = true →
  d !! upload_path item ≠ Some Dir →
  can_save d (upload_path item) = true.
Proof.
  intros Hfolder Hname Hfree. apply can_save_spec. split; [done|]. right.
  unfold upload_path, upload_name.
  rewrite upload_path_under_folder_eq, dirname_upload; [done|].
  by apply stored_name_slash_free.
Qed.

(** ** Uploads that succeed and uploads that fail *)

Lemma save_fail (path : string) (data : list byte) (w : World) :
  can_save (disk w) path = false → ∃ e, save path data w = (w, Raise e).
Proof.
  unfold can_save, save. intros H.
  destruct (disk w !! path) as [[?|]|]; try (by eexists);
    destruct (String.eqb (dirname path) ""); try done;
    destruct (disk w !! dirname path) as [[?|]|]; try done; by eexists.
Qed.

(** X16: the upload handler has no handler of its own for a failing save:
    when the save of a file raises, the exception leaves the handler, the
    files of the request that were saved before stay on the disk and in
    the files of the session, and the files after it are not looked at. *)
Theorem upload_stops_at_failing_save (id : string)
    (saved : list (Z * FileStorage)) (failing : Z * FileStorage)
    (rest : list (Z * FileStorage)) (w : World) :
  Forall (λ item, can_save (disk w) (upload_path item) = true) (accepted saved) →
  filename failing.2 ≠ "" →
  can_save (written (accepted saved) (disk w)) (upload_path failing) = false →
  ∃ e,
    upload_file id (saved ++ failing :: rest) w
    = ({| sessions :=
            <[id := set_files (files (session_or_fresh w id)
                               ++ (upload_name <$> accepted saved))
                      (session_or_fresh w id)]> (sessions w);
          disk := written (accepted saved) (disk w) |},
       Raise e).
Proof.
  intros Hsaved Hname Hfail.
  unfold upload_file. rewrite create_if_absent_then.
  assert (for_fold saved (upload_one id) [] (ensure id w)
          = ({| sessions :=
                  <[id := set_files (files (session_or_fresh w id)
                                     ++ (upload_name <$> accepted saved))
                            (session_or_fresh w id)]> (sessions w);
                disk := written (accepted saved) (disk w) |},
             Ok ([] ++ (upload_name <$> accepted saved)))) as Hloop.
  { rewrite (upload_loop_run _ _ _ _ _ (ensure_lookup id w))
      by (by rewrite ensure_disk).
    by rewrite insert_ensure, ensure_disk. }
  set (w1 := {| sessions := _; disk := written (accepted saved) (disk w) |}) in *.
  destruct (save_fail (upload_path failing) (stream failing.2) w1 Hfail)
    as [e Hsave].
  exists e. apply bind_raise. rewrite for_fold_app.
  rewrite (bind_ok _ _ _ _ _ Hloop). cbn [for_fold].
  apply bind_raise. destruct failing as [epoch file]. unfold upload_one.
  cbn [snd] in Hname.
  assert (truthy (PyStr (filename file)) = true) as ->
    by (simpl; by apply negb_true_iff, String.eqb_neq).
  by apply bind_raise.
Qed.

Lemma upload_loop_unnamed (id : string) (uploads : list (Z * FileStorage))
    (acc : list string) (w : World) :
  Forall (λ item, filename item.2 = "") uploads →
  for_fold uploads (upload_one id) acc w = (w, Ok acc).
Proof.
  intros H. revert acc.
  induction uploads as [|item uploads IH]; intros acc; [done|].
  apply Forall_cons in H as [Hitem Hrest]. cbn [for_fold].
  rewrite (bind_ok _ _ w w acc); [by apply IH|].
  apply upload_one_skip. by rewrite Hitem.
Qed.

(** X17: an upload request with no file, or whose files all come without
    a name, stores nothing: the disk is untouched, the answer is the
    success response with an empty list, and the only effect is the
    creation of the session when the id was not in the store. *)
Theorem upload_without_named_file (id : string) (uploads : list (Z * FileStorage))
    (w : World) :
  Forall (λ item, filename item.2 = "") uploads →
  upload_file id uploads w
  = ({| sessions :=
          match sessions w !! id with
          | Some _ => sessions w
          | None => <[id := fresh_session]> (sessions w)
          end;
        disk := disk w |},
     Ok (jsonify [("success", JTrue); ("files", JList [])])).
Proof.
  intros H. unfold upload_file. rewrite create_if_absent_then.
  rewrite (bind_ok _ _ _ _ _ (upload_loop_unnamed id uploads [] _ H)).
  unfold ensure. destruct (sessions w !! id); [by destruct w | done].
Qed.

(** ** The MIME type of an audio file *)

Lemma string_app_overlap (p1 a p2 b : string) :
  p1 +:+ a = p2 +:+ b → (∃ q, a = q +:+ b) ∨ (∃ q, b = q +:+ a).
Proof.
  revert p2. induction p1 as [|c p1 IH]; intros p2 H.
  - left. by exists p2.
  - destruct p2 as [|c' p2].
    + right. exists (String c p1). by rewrite H.
    + rewrite !string_app_cons in H. injection H as _ H. by apply (IH p2).
Qed.

(** Two suffixes of the same string: one is a suffix of the other. *)
Lemma endswith_exclusive (s a b : string) :
  endswith s a = true → endswith s b = true →
  endswith a b || endswith b a = true.
Proof.
  intros [p1 H1]%endswith_spec [p2 H2]%endswith_spec.
  rewrite H1 in H2. apply orb_true_iff.
  destruct (string_app_overlap _ _ _ _ H2) as [[q Hq]|[q Hq]].
  - left. apply endswith_spec. by exists q.
  - right. apply endswith_spec. by exists q.
Qed.

Ltac other_suffix Hown :=
  match goal with
  | |- context [if endswith ?s ?suffix then _ else _] =>
      let E := fresh "E" in
      destruct (endswith s suffix) eqn:E;
      [first [reflexivity
             |exfalso; pose proof (endswith_exclusive _ _ _ Hown E) as Hx;
              vm_compute in Hx; discriminate]
      |try congruence]
  end.

(** No audio suffix ends with another one, so the order of the branches
    of the chain does not matter: the suffix of the name decides. *)
Lemma mime_by_suffix (name suffix mt : string) (stale : option string) :
  (suffix, mt) ∈ mime_table →
  endswith (lower name) suffix = true →
  is_audio name = true ∧ assign_mime_type name stale = Some mt.
Proof.
  intros Hin Hown. split.
  - unfold is_audio, endswith_any. apply existsb_exists. exists suffix.
    split; [|done]. unfold mime_table in Hin. unfold audio_suffixes.
    repeat (apply elem_of_cons in Hin as [[= -> ->]|Hin]; [simpl; tauto|]).
    by apply elem_of_nil in Hin.
  - unfold mime_table in Hin. unfold assign_mime_type.
    repeat (apply elem_of_cons in Hin as [[= -> ->]|Hin];
            [repeat other_suffix Hown|]).
    by apply elem_of_nil in Hin.
Qed.

(** X18: for a regular file whose name ends, whatever the case of its
    letters, with one of the six audio suffixes, the loop of the chat
    handler puts in front of the parts one inline part with the MIME type
    of that suffix (audio/wav for .wav, audio/mp3 for .mp3, and so on for
    .aiff, .aac, .ogg and .flac) and the base64 text of the bytes of the
    file, whatever type an earlier file had left in the variable. *)
Theorem audio_part_by_suffix (user_parts : list json) (stale : option string)
    (name suffix mt : string) (data : list byte) (w : World) :
  (suffix, mt)
  ∈ [(".wav", "audio/wav"); (".mp3", "audio/mp3"); (".aiff", "audio/aiff");
     (".aac", "audio/aac"); (".ogg", "audio/ogg"); (".flac", "audio/flac")] →
  endswith (lower name) suffix = true →
  disk w !! path_join UPLOAD_FOLDER name = Some (File data) →
  add_audio (user_parts, stale) name w
  = (w, Ok (JObj [("inline_data",
                   JObj [("mime_type", JStr mt);
                         ("data", JStr (b64encode data))])] :: user_parts,
            Some mt)).
Proof.
  intros Hin Hown E.
  destruct (mime_by_suffix name suffix mt stale Hin Hown) as [Ha Hassign].
  unfold add_audio, path_exists, read_bytes. unfold_M.
  rewrite bool_decide_eq_true_2; [|by eexists].
  unfold is_audio in Ha. by rewrite Ha, E, Hassign.
Qed.

Lemma lower_app (a b : string) : lower (a +:+ b) = lower a +:+ lower b.
Proof.
  induction a as [|c a IH]; [done|].
  rewrite string_app_cons. simpl. by rewrite IH, string_app_cons.
Qed.

Lemma endswith_app_l (p s suffix : string) :
  endswith s suffix = true → endswith (p +:+ s) suffix = true.
Proof.
  intros [q ->]%endswith_spec. apply endswith_spec.
  exists (p +:+ q). by rewrite string_app_assoc.
Qed.

Lemma endswith_nonempty (s suffix : string) :
  endswith s suffix = true → suffix ≠ "" → s ≠ "".
Proof.
  intros [q ->]%endswith_spec Hs Hq. destruct q; [done|discriminate].
Qed.

(** X19: an audio file that was uploaded is sent to the model by a chat
    on the session: right after the upload of one file whose name has an
    audio suffix, the assembly over its stored name gives the audio part
    with the MIME type of the suffix and the base64 text of the uploaded
    bytes, followed by the text part when the message is not empty. *)
Theorem uploaded_audio_is_sent (id : string) (epoch : Z) (file : FileStorage)
    (message : pyval) (suffix mt : string) (w : World) :
  disk w !! "uploads" = Some Dir →
  slash_free (filename file) = true →
  disk w !! ("uploads/" +:+ str_int epoch +:+ "_" +:+ filename file) ≠ Some Dir →
  (suffix, mt) ∈ mime_table →
  endswith (lower (filename file)) suffix = true →
  build_user_parts message [str_int epoch +:+ "_" +:+ filename file]
    (upload_file id [(epoch, file)] w).1
  = ((upload_file id [(epoch, file)] w).1,
     Ok (audio_part mt (b64encode (stream file))
         :: (if truthy message then [text_part message] else []))).
Proof.
  intros Hfolder Hfree Hnodir Hin Hown.
  assert (suffix ≠ "") as Hsuffix.
  { unfold mime_table in Hin.
    repeat (apply elem_of_cons in Hin as [[= -> ->]|Hin]; [done|]).
    by apply elem_of_nil in Hin. }
  assert (filename file ≠ "") as Hname.
  { intros Heq. rewrite Heq in Hown.
    by apply (endswith_nonempty _ _ Hown Hsuffix). }
  assert (truthy (PyStr (filename file)) = true) as T
    by (simpl; by apply negb_true_iff, String.eqb_neq).
  assert (accepted [(epoch, file)] = [(epoch, file)]) as Hacc
    by (unfold accepted; cbn [List.filter snd]; by rewrite T).
  rewrite upload_file_run; last first.
  { rewrite Hacc. constructor; [|constructor].
    apply can_save_upload; [done..|].
    unfold upload_path, upload_name. by rewrite upload_path_under_folder_eq. }
  rewrite Hacc. cbn [fst written foldl snd].
  set (w' := {| sessions := _; disk := _ |}).
  assert (endswith (lower (stored_name epoch (filename file))) suffix = true)
    as Hstored.
  { unfold stored_name. rewrite !lower_app, <- string_app_assoc.
    by apply endswith_app_l. }
  assert (disk w' !! path_join UPLOAD_FOLDER (stored_name epoch (filename file))
          = Some (File (stream file))) as E
    by (subst w'; simpl; apply lookup_insert_eq).
  destruct (mime_by_suffix _ suffix mt None Hin Hstored) as [Ha Hassign].
  unfold build_user_parts. cbn [for_fold].
  change (str_int epoch +:+ "_" +:+ filename file)
    with (stored_name epoch (filename file)).
  assert (add_audio (if truthy message then [text_part message] else [], None)
            (stored_name epoch (filename file)) w'
          = (w', Ok (audio_part mt (b64encode (stream file))
                     :: (if truthy message then [text_part message] else []),
                     Some mt))) as Hstep.
  { unfold add_audio, path_exists, read_bytes. unfold_M.
    rewrite bool_decide_eq_true_2; [|by eexists].
    unfold is_audio in Ha. by rewrite Ha, E, Hassign. }
  rewrite (bind_ok _ _ _ _ _ (bind_ok _ _ _ _ _ Hstep)). reflexivity.
Qed.

(** ** Ticket numbers read back *)

Lemma length_zeros (k : nat) : String.length (zeros k) = k.
Proof. induction k as [|k IH]; simpl; [done | by rewrite IH]. Qed.

Lemma str_nat_short (n : nat) :
  (n < 1000)%nat → (String.length (str_nat n) ≤ 3)%nat.
Proof.
  intros H.
  assert (forallb (λ k, String.length (str_nat k) <=? 3)%nat (seq 0 1000) = true)
    as Hall by (vm_compute; reflexivity).
  rewrite forallb_forall in Hall. apply Nat.leb_le, Hall, in_seq. lia.
Qed.

(** X20: the ticket number never loses a digit of the counter: the
    decimal value read after the letter Q is the counter, so two counters
    never give the same ticket; the number has at least three digits, and
    exactly three for a counter below 1000. *)
Theorem ticket_number_reads_back (n : nat) :
  ticket_value (ticket_number_of n) = Some n
  ∧ (4 ≤ String.length (ticket_number_of n))%nat
  ∧ ((n < 1000)%nat → String.length (ticket_number_of n) = 4)
  ∧ (∀ m, ticket_number_of m = ticket_number_of n → m = n).
Proof.
  split; [apply ticket_value_of|].
  assert (String.length (ticket_number_of n)
          = 1 + (3 - String.length (str_nat n) + String.length (str_nat n)))
    as Hlen.
  { rewrite ticket_number_of_unfold. simpl.
    by rewrite string_length_app, length_zeros. }
  split; [lia|]. split.
  - intros H. pose proof (str_nat_short n H). lia.
  - intros m. apply ticket_number_of_inj.
Qed.

(** ** Instances *)

Lemma other_sessions_untouched_witness :
  sessions (serve [CreateTicket "s2"; Feedback "s2" (PyInt 1) (PyStr "") "t1";
                   Clear "s2"; Upload "s3" []] sample_world).1 !! "s1"
  = Some sample_session.
Proof.
  rewrite (other_sessions_untouched
             [CreateTicket "s2"; Feedback "s2" (PyInt 1) (PyStr "") "t1";
              Clear "s2"; Upload "s3" []] "s1" sample_world).
  - reflexivity.
  - repeat (constructor; [discriminate|]). constructor.
Defined.

Lemma session_persists_and_grows_witness :
  ∃ st',
    sessions (serve [Feedback "s1" (PyInt 5) (PyStr "good") "t1"; Clear "s1";
                     CreateTicket "s1"] sample_world).1 !! "s1" = Some st'
    ∧ [sample_feedback] `prefix_of` feedback st'
    ∧ (2 ≤ ticket_counter st')%nat.
Proof.
  apply (session_persists_and_grows
           [Feedback "s1" (PyInt 5) (PyStr "good") "t1"; Clear "s1";
            CreateTicket "s1"] "s1" sample_world sample_session).
  reflexivity.
Defined.

Lemma disk_kept_without_upload_or_clear_witness :
  disk (serve [Chat (Some failing_model) "s1" (PyStr "hi") (PyBool false) "t1" "t2";
               CreateTicket "s1"; ExportJson "s1"; InitSession "s2"]
          sample_world).1
  = disk sample_world.
Proof.
  apply (disk_kept_without_upload_or_clear
           [Chat (Some failing_model) "s1" (PyStr "hi") (PyBool false) "t1" "t2";
            CreateTicket "s1"; ExportJson "s1"; InitSession "s2"] sample_world).
  repeat (constructor; [reflexivity|]). constructor.
Defined.


Lemma clear_chat_twice_witness :
  clear_chat "s1" (clear_chat "s1" sample_world).1
  = ((clear_chat "s1" sample_world).1, Ok (jsonify [("success", JTrue)])).
Proof.
  apply (clear_chat_twice sample_world "s1" sample_session). reflexivity.
Defined.

Lemma clear_then_snapshot_witness :
  (export_json "s1" (clear_chat "s1" sample_world).1).2
  = Ok (jsonify [("session_id", JStr "s1"); ("messages", JList []);
                 ("files", JList []); ("ticket_counter", JVal (PyInt 2))]).
Proof.
  apply (clear_then_snapshot sample_world "s1" sample_session). reflexivity.
Defined.

Lemma init_session_existing_witness :
  init_session "s1" sample_world
  = (sample_world,
     Ok (jsonify [("success", JTrue);
                  ("files", JList [JStr "1714557540_a.wav";
                                   JStr "1714557541_notes.pdf"]);
                  ("ticket_counter", JVal (PyInt 2))])).
Proof.
  apply (init_session_existing sample_world "s1" sample_session). reflexivity.
Defined.

Lemma chat_success_witness :
  ∃ w',
    chat (Some (λ _, Ok "pong")) "s1" (PyStr "hi") (PyBool true) "t1" "t2"
      sample_world
    = (w', Ok (jsonify [("success", JTrue); ("response", JStr "pong");
                        ("is_voice_input", JVal (PyBool true));
                        ("video", JNone); ("video_name", JNone);
                        ("session_ended", JFalse)]))
    ∧ disk w' = disk sample_world.
Proof.
  destruct (chat_success (λ _, Ok "pong") "s1" (PyStr "hi") (PyBool true)
              "t1" "t2" sample_world
              [audio_part "audio/wav" "TWFu"; text_part (PyStr "hi")] "pong")
    as (w' & H & _ & Hd); [reflexivity | reflexivity |].
  by exists w'.
Defined.

Lemma user_parts_without_text_witness :
  build_user_parts (PyStr "") ["a.wav"; "b.mp3"] two_files_world
  = (two_files_world,
     Ok [audio_part "audio/mp3" "TWE="; audio_part "audio/wav" "TWFu"]).
Proof.
  rewrite (user_parts_without_text two_files_world (PyStr "") ["a.wav"; "b.mp3"]).
  - reflexivity.
  - reflexivity.
  - intros name Hin _ Hdir.
    apply elem_of_cons in Hin as [->|Hin];
      [|apply elem_of_cons in Hin as [->|Hin]];
      [vm_compute in Hdir; discriminate
      |vm_compute in Hdir; discriminate
      |by apply elem_of_nil in Hin].
Defined.

Lemma build_user_parts_raises_only_from_read_witness :
  ∃ name,
    name ∈ ["a.wav"; "x.wav"] ∧ is_audio name = true
    ∧ is_Some (disk folder_world !! path_join UPLOAD_FOLDER name)
    ∧ (read_bytes (path_join UPLOAD_FOLDER name) folder_world).2
      = Raise (IsADirectoryError "uploads/x.wav").
Proof.
  destruct (build_user_parts_raises_only_from_read (PyStr "hi") ["a.wav"; "x.wav"]
              folder_world) as [H _].
  apply (H (IsADirectoryError "uploads/x.wav")). reflexivity.
Defined.

Lemma upload_stops_at_failing_save_witness :
  ∃ e w',
    upload_file "s1" ([(5%Z, wav_file)] ++ (5%Z, blocked_file) :: [(5%Z, ogg_file)])
      folder_world
    = (w', Raise e)
    ∧ files <$> sessions w' !! "s1" = Some ["5_a.wav"]
    ∧ disk w' !! "uploads/5_a.wav" = Some (File (stream wav_file))
    ∧ disk w' !! "uploads/5_c.ogg" = None.
Proof.
  destruct (upload_stops_at_failing_save "s1" [(5%Z, wav_file)] (5%Z, blocked_file)
              [(5%Z, ogg_file)] folder_world) as [e H].
  - repeat constructor.
  - discriminate.
  - reflexivity.
  - exists e. eexists. split; [exact H|]. repeat split; reflexivity.
Defined.

Lemma upload_without_named_file_witness :
  upload_file "s2" [(1714557601%Z, unnamed_file)] sample_world
  = ({| sessions := <["s2" := fresh_session]> (sessions sample_world);
        disk := disk sample_world |},
     Ok (jsonify [("success", JTrue); ("files", JList [])])).
Proof.
  rewrite (upload_without_named_file "s2" [(1714557601%Z, unnamed_file)]
             sample_world).
  - reflexivity.
  - repeat constructor.
Defined.

Lemma audio_part_by_suffix_witness :
  add_audio ([text_part (PyStr "hi")], Some "audio/wav") "b.mp3" two_files_world
  = (two_files_world,
     Ok ([audio_part "audio/mp3" "TWE="; text_part (PyStr "hi")], Some "audio/mp3")).
Proof.
  apply (audio_part_by_suffix [text_part (PyStr "hi")] (Some "audio/wav") "b.mp3"
           ".mp3" "audio/mp3" (list_byte_of_string "Ma") two_files_world).
  - repeat constructor.
  - reflexivity.
  - reflexivity.
Defined.

Lemma uploaded_audio_is_sent_witness :
  build_user_parts (PyStr "hi") ["1714557600_c.ogg"]
    (upload_file "s1" [(1714557600%Z, ogg_file)] sample_world).1
  = ((upload_file "s1" [(1714557600%Z, ogg_file)] sample_world).1,
     Ok [audio_part "audio/ogg" "TQ=="; text_part (PyStr "hi")]).
Proof.
  apply (uploaded_audio_is_sent "s1" 1714557600%Z ogg_file (PyStr "hi")
           ".ogg" "audio/ogg" sample_world).
  - reflexivity.
  - reflexivity.
  - discriminate.
  - repeat constructor.
  - reflexivity.
Defined.

Lemma ticket_number_reads_back_witness :
  String.length (ticket_number_of 42) = 4.
Proof.
  destruct (ticket_number_reads_back 42) as (_ & _ & H & _). apply H. lia.
Defined.
